(** * The image edit handler of [app.py]

    A shallow embedding of the Flask application [app.py]: the extension
    check [allowed_file], the naming of stored files, and the request
    handler [upload_file] with its validation, storage, response parsing
    and error funnel.

    Modelling conventions.
    - A Python [str] is a [string]; [str.lower] acts on the letters A-Z.
      No character outside ASCII lower-cases to a letter of an allowed
      extension, so membership in the allowed set is unaffected.
    - [bytes] is a list of bytes.
    - [request.files], [request.form] and the upload directory are finite
      maps keyed by strings.
    - The handler is a computation in a state and exception monad: the
      state is the content of the file system, an exception that leaves
      the handler is the left injection of the result.
    - werkzeug's [secure_filename], [uuid.uuid4], the operating system's
      refusal to write, PIL's decoder and encoder and the generative
      model are collaborators outside [app.py]; they are the fields of a
      record [World] over which the handler is parameterised.
    - Calls to [app.logger] are not part of the modelled state. *)

From Stdlib Require Import NArith ZArith Ascii String List Lia.
From stdpp Require Import base strings gmap list.

Open Scope Z_scope.

(** ** Python strings *)

Module Str.

(** [c in s] for a one-character [c]. *)
Fixpoint contains (c : ascii) (s : string) : bool :=
  match s with
  | EmptyString => false
  | String d r => if Ascii.eqb d c then true else contains c r
  end.

Definition lower_char (c : ascii) : ascii :=
  let n := N_of_ascii c in
  if ((65 <=? n) && (n <=? 90))%N then ascii_of_N (n + 32) else c.

(** [s.lower()] *)
Fixpoint lower (s : string) : string :=
  match s with
  | EmptyString => EmptyString
  | String c r => String (lower_char c) (lower r)
  end.

(** The split of [s] at the last occurrence of [sep], if there is one. *)
Fixpoint split_last (sep : ascii) (s : string) : option (string * string) :=
  match s with
  | EmptyString => None
  | String c r =>
      match split_last sep r with
      | Some (a, b) => Some (String c a, b)
      | None => if Ascii.eqb c sep then Some (EmptyString, r) else None
      end
  end.

(** [s.rsplit(sep, 1)]: two pieces around the last [sep], or [s] alone. *)
Definition rsplit1 (sep : ascii) (s : string) : list string :=
  match split_last sep s with
  | Some (a, b) => [a; b]
  | None => [s]
  end.

(** [s.startswith(c)] for a one-character [c]. *)
Definition startswith (c : ascii) (s : string) : bool :=
  match s with
  | String d _ => Ascii.eqb d c
  | EmptyString => false
  end.

(** [s.endswith(c)] for a one-character [c]. *)
Fixpoint endswith (c : ascii) (s : string) : bool :=
  match s with
  | EmptyString => false
  | String d EmptyString => Ascii.eqb d c
  | String _ r => endswith c r
  end.

(** Truth value of a string: [bool(s)]. *)
Definition truthy (s : string) : bool :=
  negb (String.eqb s "").

(** [a or b] on strings. *)
Definition or_else (a b : string) : string :=
  if truthy a then a else b.

(** Python's ASCII white space, the characters [str.strip] removes. *)
Definition is_space (c : ascii) : bool :=
  let n := N_of_ascii c in
  ((n =? 32) || ((9 <=? n) && (n <=? 13)) || ((28 <=? n) && (n <=? 31)))%N.

Fixpoint lstrip (s : string) : string :=
  match s with
  | String c r => if is_space c then lstrip r else s
  | EmptyString => EmptyString
  end.

Fixpoint rstrip (s : string) : string :=
  match s with
  | EmptyString => EmptyString
  | String c r =>
      match rstrip r with
      | EmptyString => if is_space c then EmptyString else String c EmptyString
      | r' => String c r'
      end
  end.

(** [s.strip()] *)
Definition strip (s : string) : string := rstrip (lstrip s).

(** [t] occurs in [s] as a contiguous piece. *)
Definition occurs_in (t s : string) : Prop :=
  exists a b, s = a +:+ t +:+ b.

End Str.

(** ** Exceptions *)

(** The subclasses of [Exception] that the handler meets, each with the
    text that [str(e)] gives. *)
Inductive Exception : Type :=
| IndexError (msg : string)
| ValueError (msg : string)
| OSError (msg : string)
| RuntimeError (msg : string)
| NotFound (msg : string).

Definition str (e : Exception) : string :=
  match e with
  | IndexError m | ValueError m | OSError m | RuntimeError m
  | NotFound m => m
  end.

(** A value or a raised exception. *)
Definition Exc (A : Type) : Type := (Exception + A)%type.

(** [l[i]] on a Python list. *)
Definition index {A : Type} (l : list A) (i : nat) : Exc A :=
  match l !! i with
  | Some x => inr x
  | None => inl (IndexError "list index out of range")
  end.

(** ** [allowed_file] *)

Definition ALLOWED_EXTENSIONS : gset string :=
  {[ "png"; "jpg"; "jpeg"; "gif" ]}.

(** [return '.' in filename and
     filename.rsplit('.', 1)[1].lower() in app.config['ALLOWED_EXTENSIONS']] *)
Definition allowed_file (filename : string) : Exc bool :=
  if Str.contains "." filename then
    match index (Str.rsplit1 "." filename) 1 with
    | inr ext => inr (bool_decide (Str.lower ext ∈ ALLOWED_EXTENSIONS))
    | inl e => inl e
    end
  else inr false.

(** ** Names of stored files *)

Definition bytes : Type := list Byte.byte.

Definition UPLOAD_FOLDER : string := "uploads".

(** One hexadecimal digit, lower case, as ['%x'] prints it. *)
Definition hex_digit (d : N) : ascii :=
  if (d <? 10)%N then ascii_of_N (48 + d) else ascii_of_N (87 + d).

(** The [k] low hexadecimal digits of [n], least significant first. *)
Fixpoint le_digits (k : nat) (n : N) : list N :=
  match k with
  | O => []
  | S k' => (n mod 16)%N :: le_digits k' (n / 16)%N
  end.

(** How many hexadecimal digits [n] needs. *)
Definition hex_width (n : N) : nat :=
  N.to_nat (N.log2 n / 4 + 1).

(** ['%032x' % n]: the digits of [n], most significant first, padded
    with zeros on the left to at least 32 characters. *)
Definition format_032x (n : N) : string :=
  string_of_list_ascii
    (map hex_digit (rev (le_digits (Nat.max 32 (hex_width n)) n))).

(** [os.path.join(a, b)] on a POSIX system. *)
Definition os_path_join (a b : string) : string :=
  if Str.startswith "/" b then b
  else if negb (Str.truthy a) || Str.endswith "/" a then a +:+ b
  else a +:+ "/" +:+ b.

(** [f"{unique_id}_{original_filename}"] *)
Definition stored_filename (unique_id original_filename : string) : string :=
  unique_id +:+ "_" +:+ original_filename.

(** [f"processed_{filename.rsplit('.', 1)[0]}.png"] *)
Definition processed_filename_of (filename : string) : Exc string :=
  match index (Str.rsplit1 "." filename) 0 with
  | inr stem => inr ("processed_" +:+ stem +:+ ".png")
  | inl e => inl e
  end.

(** The name with its last extension removed: what stands before the
    last dot, or the whole name when it has no dot. *)
Definition without_extension (name : string) : string :=
  match Str.split_last "." name with
  | Some (stem, _) => stem
  | None => name
  end.

(** ** Requests, responses and the model's answer *)

(** An entry of [request.files]. *)
Record FileStorage : Type := {
  filename : string;
  stream : bytes
}.

Record Request : Type := {
  files : gmap string FileStorage;
  form : gmap string string
}.

(** What a view returns: the dictionary given to [jsonify] and the
    status code, 200 when the view gives none. *)
Record HttpResponse : Type := {
  json : list (string * string);
  status : Z
}.

Record Blob : Type := { data : bytes }.

(** A part of a candidate's content as the handler reads it: two
    attributes, each of which the handler compares with [None]. The
    parts of [google.generativeai] never hold [None]: a field that is
    not set reads as the empty [Blob], or as the empty string. Other
    values of this record are what a test double would give. *)
Record Part : Type := {
  inline_data : option Blob;
  text : option string
}.

Record Content : Type := { parts : list Part }.
Record Candidate : Type := { content : Content }.
Record GenerateContentResponse : Type := { candidates : list Candidate }.

(** ** The collaborators outside [app.py] *)

Record World (Image : Type) : Type := {
  (** [werkzeug.utils.secure_filename] *)
  secure_filename : string -> string;
  (** [uuid.uuid4().int], a number below [2^128] *)
  uuid4 : N;
  (** the error, if any, with which the operating system refuses to
      create the file at a path *)
  write_error : string -> option Exception;
  (** [PIL.Image.open] on the content of a file or of a [BytesIO] *)
  Image_open : bytes -> Exc Image;
  (** [model.generate_content([prompt, img], request_options=...)] *)
  generate_content : string -> Image -> Exc GenerateContentResponse;
  (** the PNG encoding that [image.save(path, 'PNG')] writes *)
  encode_PNG : Image -> Exc bytes
}.

Arguments secure_filename {Image} _ _.
Arguments uuid4 {Image} _.
Arguments write_error {Image} _ _.
Arguments Image_open {Image} _ _.
Arguments generate_content {Image} _ _ _.
Arguments encode_PNG {Image} _ _.

(** ** State and exceptions *)

(** The upload directory and whatever else is on disk: path to content. *)
Abbreviation FS := (gmap string bytes).

(** A statement sequence of the handler: it runs on a file system and
    ends with a value or a raised exception, and a file system. *)
Definition M (A : Type) : Type := FS -> Exc A * FS.

Definition ret {A : Type} (x : A) : M A :=
  fun fs => (inr x, fs).

Definition bind {A B : Type} (m : M A) (k : A -> M B) : M B :=
  fun fs =>
    match m fs with
    | (inr x, fs') => k x fs'
    | (inl e, fs') => (inl e, fs')
    end.

(** A computation that touches no file. *)
Definition lift {A : Type} (r : Exc A) : M A :=
  fun fs => (r, fs).

(** [try: m  except Exception as e: h e] *)
Definition try_except {A : Type} (m : M A) (h : Exception -> M A) : M A :=
  fun fs =>
    match m fs with
    | (inr x, fs') => (inr x, fs')
    | (inl e, fs') => h e fs'
    end.

Notation "'do' x <- m 'in' k" := (bind m (fun x => k))
  (at level 10, x name, m at level 100, k at level 200).

(** [open(path, 'rb').read()] *)
Definition read_file (path : string) : M bytes :=
  fun fs =>
    match fs !! path with
    | Some b => (inr b, fs)
    | None => (inl (OSError "No such file or directory"), fs)
    end.

(** ** Parsing the model's answer *)

(** Lines 91-94: the loop over the parts with its [break]. The result is
    the value of [processed_image_data] after the loop and the parts the
    loop never reached. *)
Fixpoint scan_inline (ps : list Part) (processed_image_data : option bytes)
  : option bytes * list Part :=
  match ps with
  | [] => (processed_image_data, [])
  | part :: rest =>
      match inline_data part with
      | Some blob => (Some (data blob), rest)
      | None => scan_inline rest processed_image_data
      end
  end.

(** Lines 99-101: the loop that appends the text of every text part. *)
Fixpoint collect_text (ps : list Part) (text_response : string) : string :=
  match ps with
  | [] => text_response
  | part :: rest =>
      match text part with
      | Some t => collect_text rest (text_response +:+ t)
      | None => collect_text rest text_response
      end
  end.

(** [not processed_image_data]: [None] and [b''] are both false. *)
Definition no_image_data (d : option bytes) : bool :=
  match d with
  | None => true
  | Some [] => true
  | Some (_ :: _) => false
  end.

(** Lines 90-104: the payload of the edited image, or the [ValueError]
    with the model's text. *)
Definition extract_image (response : GenerateContentResponse) : Exc bytes :=
  match index (candidates response) 0 with
  | inl e => inl e
  | inr candidate =>
      let processed_image_data :=
        fst (scan_inline (parts (content candidate)) None) in
      if no_image_data processed_image_data then
        let text_response := collect_text (parts (content candidate)) "" in
        inl (ValueError ("The model did not return an image. Response: "
                         +:+ Str.or_else text_response "Empty"))
      else inr (default [] processed_image_data)
  end.

(** ** The handler *)

Section Handler.

Context {Image : Type} (W : World Image).

(** Creating or replacing the file at [path]. A write that fails is
    taken to leave the file system as it was: the empty or partial file
    that a failure after the creation of the file leaves at [path]
    itself is not modelled. *)
Definition write_file (path : string) (b : bytes) : M unit :=
  fun fs =>
    match write_error W path with
    | Some e => (inl e, fs)
    | None => (inr tt, <[path := b]> fs)
    end.

(** [file.save(filepath)] *)
Definition FileStorage_save (file : FileStorage) (filepath : string) : M unit :=
  write_file filepath (stream file).

(** [Image.open(filepath)] *)
Definition Image_open_path (filepath : string) : M Image :=
  do b <- read_file filepath in lift (Image_open W b).

(** [image.save(path, 'PNG')], as far as it succeeds: the file holds
    the encoding of the image. For a failure the same assumption as in
    [write_file] is made: PIL creates the file before it encodes, and
    what a failing encoder leaves at [path] is not modelled, nor which
    of two failures is reported. *)
Definition Image_save_PNG (image : Image) (path : string) : M unit :=
  do png <- lift (encode_PNG W image) in write_file path png.

(** [bool(file)]: a [FileStorage] is true when it has a file name. *)
Definition FileStorage_bool (file : FileStorage) : bool :=
  Str.truthy (filename file).

(** Lines 70-117, the body of the [try]: its value is
    [processed_image_url]. *)
Definition process (instruction name filepath : string) : M string :=
  do img <- Image_open_path filepath in
  let prompt := instruction in
  do response <- lift (generate_content W prompt img) in
  do processed_image_data <- lift (extract_image response) in
  do processed_image <- lift (Image_open W processed_image_data) in
  do processed_filename <- lift (processed_filename_of name) in
  let processed_filepath := os_path_join UPLOAD_FOLDER processed_filename in
  do _ <- Image_save_PNG processed_image processed_filepath in
  ret ("/uploads/" +:+ processed_filename).

(** Lines 49-129. *)
Definition upload_file (request : Request) : M HttpResponse :=
  match files request !! "file" with
  | None => ret {| json := [("error", "No file part")]; status := 400 |}
  | Some file =>
      if String.eqb (filename file) "" then
        ret {| json := [("error", "No selected file")]; status := 400 |}
      else
        let instruction := default "" (form request !! "instruction") in
        if negb (Str.truthy instruction) then
          ret {| json := [("error", "Instruction is required")]; status := 400 |}
        else
          do allowed <- (if FileStorage_bool file
                         then lift (allowed_file (filename file))
                         else ret false) in
          if allowed : bool then
            let original_filename := secure_filename W (filename file) in
            let unique_id := format_032x (uuid4 W) in
            let name := stored_filename unique_id original_filename in
            let filepath := os_path_join UPLOAD_FOLDER name in
            do _ <- FileStorage_save file filepath in
            do r <- try_except
                      (do processed_image_url <- process instruction name filepath in
                       ret (inr processed_image_url))
                      (fun e =>
                         ret (inl {| json :=
                                       [("error",
                                         "Failed to process image with AI model. Details: "
                                         +:+ str e)];
                                     status := 500 |})) in
            match r with
            | inl early => ret early
            | inr processed_image_url =>
                ret {| json := [("original_url", "/uploads/" +:+ name);
                                ("processed_url", processed_image_url);
                                ("instruction", instruction)];
                       status := 200 |}
            end
          else
            ret {| json := [("error",
                             "File type not allowed or an unexpected error occurred.")];
                   status := 400 |}
  end.

End Handler.

(** The route [/uploads/<filename>] (lines 131-134):
    [send_from_directory] gives the content of the file of that name in
    the upload directory and raises [NotFound], which Flask answers
    with 404, when there is none. The application is taken to run in
    its own directory, so that the directory of the route is the one
    [file.save] writes to. *)
Definition uploaded_file (name : string) : M bytes :=
  fun fs =>
    match fs !! os_path_join UPLOAD_FOLDER name with
    | Some b => (inr b, fs)
    | None =>
        (inl (NotFound ("404 Not Found: The requested URL was not found on "
                        +:+ "the server. If you entered the URL manually "
                        +:+ "please check your spelling and try again.")),
         fs)
    end.

(** The text of the text parts, concatenated in part order. *)
Definition text_of_parts (ps : list Part) : string :=
  foldr String.append "" (omap text ps).

(** The diagnostic of the no-image path. *)
Definition no_image_error (ps : list Part) : Exception :=
  ValueError ("The model did not return an image. Response: "
              +:+ Str.or_else (text_of_parts ps) "Empty").

(** ** Names for what the handler computes *)

Section HandlerNames.

Context {Image : Type} (W : World Image).

(** The name and the path under which the handler stores an upload. *)
Definition upload_name (file : FileStorage) : string :=
  stored_filename (format_032x (uuid4 W)) (secure_filename W (filename file)).

Definition upload_path (file : FileStorage) : string :=
  os_path_join UPLOAD_FOLDER (upload_name file).

(** The request passes the four checks of lines 51-61 with the file
    [file] and the instruction [instruction]. *)
Record accepted (request : Request) (file : FileStorage)
    (instruction : string) : Prop := {
  acc_file : files request !! "file" = Some file;
  acc_name : filename file <> "";
  acc_form : form request !! "instruction" = Some instruction;
  acc_instruction : instruction <> "";
  acc_extension : allowed_file (filename file) = inr true
}.

Definition failure_response (e : Exception) : HttpResponse :=
  {| json := [("error",
               "Failed to process image with AI model. Details: " +:+ str e)];
     status := 500 |}.

Definition success_response (name url instruction : string) : HttpResponse :=
  {| json := [("original_url", "/uploads/" +:+ name);
              ("processed_url", url);
              ("instruction", instruction)];
     status := 200 |}.

(** The request fails one of the four checks: no file part, an empty
    file name, a missing or empty instruction, or an extension that
    [allowed_file] does not accept. *)
Definition fails_validation (request : Request) : bool :=
  match files request !! "file" with
  | None => true
  | Some file =>
      String.eqb (filename file) ""
      || String.eqb (default "" (form request !! "instruction")) ""
      || match allowed_file (filename file) with
         | inr true => false
         | _ => true
         end
  end.

Definition error_response (msg : string) (code : Z) : HttpResponse :=
  {| json := [("error", msg)]; status := code |}.

End HandlerNames.

(** ** A concrete world and concrete requests *)

(** A sanitizer that keeps plain names, a file system that refuses a
    name of more than 255 characters in the upload directory, a decoder
    and an encoder that accept everything, and a model that gives
    [answer]. *)
Definition demo_world (answer : Exc GenerateContentResponse) : World bytes :=
  {| secure_filename := fun s => s;
     uuid4 := 12345%N;
     write_error := fun path =>
       if Nat.ltb 263 (String.length path)
       then Some (OSError "File name too long") else None;
     Image_open := fun b => inr b;
     generate_content := fun _ _ => answer;
     encode_PNG := fun image => inr image |}.

Definition demo_request (name instruction : string) : Request :=
  {| files := {[ "file" := {| filename := name; stream := [Byte.x89; Byte.x50] |} ]};
     form := {[ "instruction" := instruction ]} |}.

(** Parts with an attribute that is [None], as a test double has them. *)
Definition text_part (t : string) : Part :=
  {| inline_data := None; text := Some t |}.

Definition inline_part (d : bytes) : Part :=
  {| inline_data := Some {| data := d |}; text := None |}.



Definition answer_of (ps : list Part) : GenerateContentResponse :=
  {| candidates := [ {| content := {| parts := ps |} |} ] |}.

(** A file name of 304 characters with an allowed extension. *)
Definition long_name : string :=
  string_of_list_ascii (repeat "a"%char 300) +:+ ".png".

(** ** Start-up *)

(** What the configuration at import time leaves behind: the key given
    to [genai.configure], if the call was made and returned, and the
    lines printed. *)
Record Startup : Type := {
  configured_key : option string;
  printed : list string
}.

(** Lines 19-25. [environ] is the environment after [load_dotenv()],
    [genai_configure] the library call, which configures nothing when
    it raises. The result is the exception that leaves the block, if
    any, and the state left behind. *)
Definition configure_gemini (environ : gmap string string)
    (genai_configure : string -> Exc unit) : Exc unit * Startup :=
  let body : Exc unit * option string :=
    let api_key := environ !! "GOOGLE_API_KEY" in
    match api_key with
    | None =>
        (inl (ValueError "GOOGLE_API_KEY not found in .env file."), None)
    | Some key =>
        if negb (Str.truthy key) then
          (inl (ValueError "GOOGLE_API_KEY not found in .env file."), None)
        else
          match genai_configure key with
          | inl e => (inl e, None)
          | inr _ => (inr tt, Some key)
          end
    end in
  match body with
  | (inr _, k) => (inr tt, {| configured_key := k; printed := [] |})
  | (inl e, k) =>
      (inr tt,
       {| configured_key := k;
          printed := ["Fatal Error: Could not configure Gemini API. "
                      +:+ str e] |})
  end.

(** ** The result of an upload and the kinds of run *)

Section Runs.

Context {Image : Type} (W : World Image).

(** The name that lines 111-112 give to the result of an upload, and
    its path. *)
Definition result_name (file : FileStorage) : string :=
  "processed_" +:+ format_032x (uuid4 W) +:+ "_"
  +:+ without_extension (secure_filename W (filename file)) +:+ ".png".

Definition result_path (file : FileStorage) : string :=
  os_path_join UPLOAD_FOLDER (result_name file).

(** The world [W] with another generative model. *)
Definition with_model
    (model : string -> Image -> Exc GenerateContentResponse) : World Image :=
  {| secure_filename := secure_filename W;
     uuid4 := uuid4 W;
     write_error := write_error W;
     Image_open := Image_open W;
     generate_content := model;
     encode_PNG := encode_PNG W |}.

(** The four ways in which the handler ends on [request] and [fs]: a
    validation error, an exception of [file.save], a caught exception of
    the processing, or success. *)
Inductive run (request : Request) (fs : FS) : Exc HttpResponse -> FS -> Prop :=
| run_rejected (msg : string) :
    fails_validation request = true ->
    run request fs (inr (error_response msg 400)) fs
| run_escaped (file : FileStorage) (instruction : string) (e : Exception) :
    accepted request file instruction ->
    write_error W (upload_path W file) = Some e ->
    run request fs (inl e) fs
| run_failed (file : FileStorage) (instruction : string) (e : Exception) :
    accepted request file instruction ->
    write_error W (upload_path W file) = None ->
    run request fs (inr (failure_response e))
      (<[upload_path W file := stream file]> fs)
| run_succeeded (file : FileStorage) (instruction : string) (png : bytes) :
    accepted request file instruction ->
    write_error W (upload_path W file) = None ->
    write_error W (result_path file) = None ->
    run request fs
      (inr (success_response (upload_name W file)
              ("/uploads/" +:+ result_name file) instruction))
      (<[result_path file := png]>
         (<[upload_path W file := stream file]> fs)).

End Runs.

(** * Facts about strings *)

Section StringFacts.

Lemma append_nil (b : string) : "" +:+ b = b.
Proof. reflexivity. Qed.

Lemma append_cons (x : ascii) (a b : string) :
  String x a +:+ b = String x (a +:+ b).
Proof. reflexivity. Qed.

Lemma append_assoc (a b c : string) : (a +:+ b) +:+ c = a +:+ (b +:+ c).
Proof. induction a as [|x a IH]; rewrite ?append_nil, ?append_cons; simpl; [reflexivity | now rewrite IH]. Qed.

Lemma append_empty_r (a : string) : a +:+ "" = a.
Proof. induction a as [|x a IH]; rewrite ?append_nil, ?append_cons; simpl; [reflexivity | now rewrite IH]. Qed.

Lemma append_inv_head (a b c : string) : a +:+ b = a +:+ c -> b = c.
Proof.
  induction a as [|x a IH]; rewrite ?append_nil, ?append_cons; simpl; intros H; [exact H |].
  injection H as H. now apply IH.
Qed.

Lemma list_ascii_of_append (a b : string) :
  list_ascii_of_string (a +:+ b)
  = list_ascii_of_string a ++ list_ascii_of_string b.
Proof. induction a as [|x a IH]; rewrite ?append_nil, ?append_cons; simpl; [reflexivity | now rewrite IH]. Qed.

Lemma list_ascii_inj (a b : string) :
  list_ascii_of_string a = list_ascii_of_string b -> a = b.
Proof.
  intros H. rewrite <- (string_of_list_ascii_of_string a).
  rewrite <- (string_of_list_ascii_of_string b). now rewrite H.
Qed.

Lemma append_inv_tail (a b c : string) : a +:+ c = b +:+ c -> a = b.
Proof.
  intros H. apply list_ascii_inj.
  apply (f_equal list_ascii_of_string) in H.
  rewrite !list_ascii_of_append in H.
  now apply app_inv_tail in H.
Qed.

Lemma truthy_spec (s : string) : Str.truthy s = true <-> s <> "".
Proof.
  unfold Str.truthy. destruct (String.eqb_spec s ""); rewrite ?append_nil, ?append_cons; simpl; split; congruence.
Qed.

Lemma truthy_false (s : string) : Str.truthy s = false <-> s = "".
Proof.
  unfold Str.truthy. destruct (String.eqb_spec s ""); rewrite ?append_nil, ?append_cons; simpl; split; congruence.
Qed.

Lemma contains_append (c : ascii) (a b : string) :
  Str.contains c (a +:+ b) = Str.contains c a || Str.contains c b.
Proof.
  induction a as [|x a IH]; rewrite ?append_nil, ?append_cons; simpl; [reflexivity |].
  destruct (Ascii.eqb x c); [reflexivity | exact IH].
Qed.

Lemma split_last_none (c : ascii) (s : string) :
  Str.contains c s = false -> Str.split_last c s = None.
Proof.
  induction s as [|x s IH]; rewrite ?append_nil, ?append_cons; simpl; [reflexivity |].
  destruct (Ascii.eqb x c); [discriminate |].
  intros H. now rewrite IH.
Qed.

Lemma split_last_some (c : ascii) (s : string) :
  Str.contains c s = true -> exists a b, Str.split_last c s = Some (a, b).
Proof.
  induction s as [|x s IH]; rewrite ?append_nil, ?append_cons; simpl; [discriminate |].
  destruct (Str.split_last c s) as [[a b]|] eqn:E.
  - intros _. eauto.
  - destruct (Ascii.eqb x c); [eauto |].
    intros H. destruct (IH H) as (a & b & Hab). discriminate.
Qed.

(** What [split_last] returns is the split at the last separator. *)
Lemma split_last_inv (c : ascii) (s a b : string) :
  Str.split_last c s = Some (a, b) ->
  s = a +:+ String c b /\ Str.contains c b = false.
Proof.
  revert a b. induction s as [|x s IH]; rewrite ?append_nil, ?append_cons; simpl; intros a b; [discriminate |].
  destruct (Str.split_last c s) as [[a' b']|] eqn:E.
  - intros H. injection H as <- <-.
    destruct (IH a' b' eq_refl) as [-> Hb]. rewrite ?append_cons. auto.
  - destruct (Ascii.eqb_spec x c) as [->|Hne]; [| discriminate].
    intros H. injection H as <- <-. simpl. split; [reflexivity |].
    destruct (Str.contains c s) eqn:Hc; [| reflexivity].
    destruct (split_last_some c s Hc) as (a & b & Hab). congruence.
Qed.

Lemma split_last_at (c : ascii) (a b : string) :
  Str.contains c b = false ->
  Str.split_last c (a +:+ String c b) = Some (a, b).
Proof.
  intros Hb. induction a as [|x a IH]; rewrite ?append_nil, ?append_cons; simpl.
  - rewrite (split_last_none c b Hb). now rewrite Ascii.eqb_refl.
  - now rewrite IH.
Qed.

(** A prefix without the separator stays in front of the first piece. *)
Lemma split_last_prefix (c : ascii) (u s : string) :
  Str.contains c u = false ->
  Str.split_last c (u +:+ s)
  = match Str.split_last c s with
    | Some (a, b) => Some (u +:+ a, b)
    | None => None
    end.
Proof.
  induction u as [|x u IH]; rewrite ?append_nil, ?append_cons; simpl.
  - intros _. destruct (Str.split_last c s) as [[a b]|]; reflexivity.
  - destruct (Ascii.eqb x c) eqn:E; [discriminate |].
    intros H. rewrite (IH H).
    destruct (Str.split_last c s) as [[a b]|]; [reflexivity |].
    reflexivity.
Qed.

End StringFacts.

(** * Facts about the hexadecimal identifier *)

Section HexFacts.

Local Open Scope N_scope.

Lemma hex_digit_code (d : N) :
  (d < 16)%N ->
  N_of_ascii (hex_digit d) = if (d <? 10)%N then (48 + d)%N else (87 + d)%N.
Proof.
  intros H. unfold hex_digit.
  destruct (N.ltb_spec d 10); apply N_ascii_embedding; lia.
Qed.

Lemma hex_digit_inj (d e : N) :
  (d < 16)%N -> (e < 16)%N -> hex_digit d = hex_digit e -> d = e.
Proof.
  intros Hd He H. apply (f_equal N_of_ascii) in H.
  rewrite !hex_digit_code in H by assumption.
  destruct (N.ltb_spec d 10), (N.ltb_spec e 10); lia.
Qed.

Lemma le_digits_length (k : nat) (n : N) : length (le_digits k n) = k.
Proof. revert n. induction k as [|k IH]; intros n; simpl; auto. Qed.

Lemma le_digits_lt (k : nat) (n d : N) : In d (le_digits k n) -> (d < 16)%N.
Proof.
  revert n. induction k as [|k IH]; intros n; simpl; [tauto |].
  intros [<- | H]; [apply N.mod_lt; lia | eauto].
Qed.

Lemma le_digits_inj (k : nat) (n m : N) :
  (n < 16 ^ N.of_nat k)%N -> (m < 16 ^ N.of_nat k)%N ->
  le_digits k n = le_digits k m -> n = m.
Proof.
  revert n m. induction k as [|k IH]; intros n m Hn Hm H.
  - simpl in Hn, Hm. lia.
  - rewrite Nat2N.inj_succ, N.pow_succ_r' in Hn, Hm.
    simpl in H. injection H as H0 H1.
    apply IH in H1.
    + rewrite (N.div_mod n 16), (N.div_mod m 16) by lia. congruence.
    + apply N.Div0.div_lt_upper_bound; lia.
    + apply N.Div0.div_lt_upper_bound; lia.
Qed.

Lemma map_hex_digit_inj (l l' : list N) :
  (forall d, In d l -> (d < 16)%N) -> (forall d, In d l' -> (d < 16)%N) ->
  map hex_digit l = map hex_digit l' -> l = l'.
Proof.
  revert l'. induction l as [|d l IH]; intros [|d' l'] Hl Hl' H;
    simpl in H; try discriminate; [reflexivity |].
  injection H as H0 H1. f_equal.
  - apply hex_digit_inj; [apply Hl | apply Hl' | assumption]; now left.
  - apply IH; [intros; apply Hl | intros; apply Hl' | assumption]; now right.
Qed.

(** An identifier below [2^128] prints as exactly 32 digits. *)
Lemma hex_width_uuid (n : N) : (n < 2 ^ 128)%N -> Nat.max 32 (hex_width n) = 32%nat.
Proof.
  intros H. unfold hex_width.
  assert (N.log2 n < 128)%N as Hlog.
  { destruct (N.eq_dec n 0) as [->|Hn]; [reflexivity |].
    apply N.log2_lt_pow2; lia. }
  assert (N.log2 n / 4 < 32)%N by (apply N.Div0.div_lt_upper_bound; lia).
  lia.
Qed.

Lemma format_032x_chars (n : N) :
  list_ascii_of_string (format_032x n)
  = map hex_digit (rev (le_digits (Nat.max 32 (hex_width n)) n)).
Proof. unfold format_032x. apply list_ascii_of_string_of_list_ascii. Qed.

Lemma format_032x_inj (n m : N) :
  (n < 2 ^ 128)%N -> (m < 2 ^ 128)%N ->
  format_032x n = format_032x m -> n = m.
Proof.
  intros Hn Hm H. apply (f_equal list_ascii_of_string) in H.
  rewrite !format_032x_chars, !hex_width_uuid in H by assumption.
  apply map_hex_digit_inj in H.
  - apply (f_equal (@rev N)) in H. rewrite !rev_involutive in H.
    apply le_digits_inj in H; [assumption | |];
      change (16 ^ N.of_nat 32)%N with (2 ^ 128)%N; assumption.
  - intros d Hd. apply in_rev in Hd. eauto using le_digits_lt.
  - intros d Hd. apply in_rev in Hd. eauto using le_digits_lt.
Qed.

Lemma contains_in (c : ascii) (s : string) :
  Str.contains c s = true -> In c (list_ascii_of_string s).
Proof.
  induction s as [|x s IH]; simpl; [discriminate |].
  destruct (Ascii.eqb_spec x c); auto.
Qed.

(** Every character of the identifier is one of [0-9a-f]. *)
Lemma format_032x_hex (n : N) (c : ascii) :
  In c (list_ascii_of_string (format_032x n)) ->
  ((48 <= N_of_ascii c <= 57) \/ (97 <= N_of_ascii c <= 102))%N.
Proof.
  rewrite format_032x_chars. intros H.
  apply in_map_iff in H as (d & <- & Hd).
  apply in_rev, le_digits_lt in Hd.
  rewrite hex_digit_code by assumption.
  destruct (N.ltb_spec d 10); lia.
Qed.

Lemma format_032x_no_dot (n : N) : Str.contains "." (format_032x n) = false.
Proof.
  destruct (Str.contains "." (format_032x n)) eqn:E; [| reflexivity].
  apply contains_in, format_032x_hex in E. simpl in E. lia.
Qed.

Lemma format_032x_cons (n : N) :
  exists x r, format_032x n = String x r /\ x <> "/"%char /\ x <> "p"%char.
Proof.
  destruct (format_032x n) as [|x r] eqn:E.
  - apply (f_equal list_ascii_of_string) in E.
    rewrite format_032x_chars in E.
    apply (f_equal (@length ascii)) in E.
    rewrite length_map, length_rev, le_digits_length in E. simpl in E. lia.
  - exists x, r. split; [reflexivity |].
    assert (In x (list_ascii_of_string (format_032x n))) as H
      by (rewrite E; now left).
    apply format_032x_hex in H.
    split; intros ->; simpl in H; lia.
Qed.

End HexFacts.

(** * Facts about [allowed_file] and the stored names *)

Section NameFacts.

Example allowed_file_png : allowed_file "cat.PNG" = inr true.
Proof. vm_compute. reflexivity. Qed.

Lemma allowed_file_no_dot (f : string) :
  Str.contains "." f = false -> allowed_file f = inr false.
Proof. intros H. unfold allowed_file. now rewrite H. Qed.

(** With a dot in the name, only what follows the last dot counts. *)
Lemma allowed_file_ext (stem ext : string) :
  Str.contains "." ext = false ->
  allowed_file (stem +:+ String "." ext)
  = inr (bool_decide (Str.lower ext ∈ ALLOWED_EXTENSIONS)).
Proof.
  intros H. unfold allowed_file, Str.rsplit1.
  rewrite contains_append. simpl Str.contains.
  rewrite orb_true_r, (split_last_at _ _ _ H). reflexivity.
Qed.

(** The index [1] in [allowed_file] is guarded by the test for a dot:
    the function never raises. *)
Lemma allowed_file_total (f : string) : exists b, allowed_file f = inr b.
Proof.
  unfold allowed_file, Str.rsplit1.
  destruct (Str.contains "." f) eqn:E; [| eauto].
  destruct (split_last_some _ _ E) as (a & b & ->). simpl. eauto.
Qed.

Lemma allowed_file_true_inv (f : string) :
  allowed_file f = inr true ->
  exists stem ext, f = stem +:+ String "." ext
                   /\ Str.contains "." ext = false
                   /\ Str.lower ext ∈ ALLOWED_EXTENSIONS.
Proof.
  unfold allowed_file, Str.rsplit1.
  destruct (Str.contains "." f) eqn:E; [| discriminate].
  destruct (split_last_some _ _ E) as (a & b & Hab). rewrite Hab. simpl.
  intros H. injection H as H. apply bool_decide_eq_true in H.
  apply split_last_inv in Hab as [-> Hb]. eauto.
Qed.

Lemma startswith_append (c x : ascii) (r s : string) :
  x <> c -> Str.startswith c (String x r +:+ s) = false.
Proof.
  intros H. rewrite append_cons. simpl.
  destruct (Ascii.eqb_spec x c); congruence.
Qed.

Lemma os_path_join_uploads (name : string) :
  Str.startswith "/" name = false ->
  os_path_join UPLOAD_FOLDER name = "uploads/" +:+ name.
Proof. intros H. unfold os_path_join. rewrite H. reflexivity. Qed.

(** The path of an upload stored under the identifier [u]. *)
Lemma upload_path_eq (u : N) (original : string) :
  os_path_join UPLOAD_FOLDER (stored_filename (format_032x u) original)
  = "uploads/" +:+ format_032x u +:+ "_" +:+ original.
Proof.
  apply os_path_join_uploads. unfold stored_filename.
  destruct (format_032x_cons u) as (x & r & -> & Hx & _).
  now apply startswith_append.
Qed.

(** The identifier has no dot, so the last dot of the stored name is
    the last dot of the sanitized name. *)
Lemma processed_filename_eq (u : N) (original : string) :
  processed_filename_of (stored_filename (format_032x u) original)
  = inr ("processed_" +:+ format_032x u +:+ "_"
         +:+ without_extension original +:+ ".png").
Proof.
  unfold processed_filename_of, stored_filename, Str.rsplit1, without_extension.
  rewrite (split_last_prefix _ _ _ (format_032x_no_dot u)).
  change ("_" +:+ original) with (String "_" original).
  simpl Str.split_last.
  destruct (Str.split_last "." original) as [[a b]|]; simpl;
    rewrite ?append_assoc; reflexivity.
Qed.

Lemma processed_path_eq (stem : string) :
  os_path_join UPLOAD_FOLDER ("processed_" +:+ stem)
  = "uploads/processed_" +:+ stem.
Proof. reflexivity. Qed.

End NameFacts.

(** * Facts about the parsing of the answer *)

Section ParsingFacts.

(** The loop stops at the first part with inline data. *)
Lemma scan_inline_first (pre post : list Part) (p : Part) (blob : Blob)
    (acc : option bytes) :
  Forall (fun q => inline_data q = None) pre ->
  inline_data p = Some blob ->
  scan_inline (pre ++ p :: post) acc = (Some (data blob), post).
Proof.
  intros Hpre Hp. induction Hpre as [|q pre Hq _ IH]; simpl.
  - now rewrite Hp.
  - now rewrite Hq.
Qed.

(** Without such a part the loop runs to the end and assigns nothing. *)
Lemma scan_inline_none (ps : list Part) (acc : option bytes) :
  Forall (fun q => inline_data q = None) ps ->
  scan_inline ps acc = (acc, []).
Proof.
  intros H. induction H as [|q ps Hq _ IH]; simpl; [reflexivity |].
  now rewrite Hq.
Qed.

Lemma collect_text_eq (ps : list Part) (acc : string) :
  collect_text ps acc = acc +:+ text_of_parts ps.
Proof.
  unfold text_of_parts. revert acc.
  induction ps as [|p ps IH]; intros acc; simpl.
  - now rewrite append_empty_r.
  - destruct (text p) as [t|]; simpl; rewrite IH;
      [now rewrite append_assoc | reflexivity].
Qed.

Lemma text_of_parts_none (ps : list Part) :
  Forall (fun q => text q = None) ps -> text_of_parts ps = "".
Proof.
  unfold text_of_parts. intros H.
  induction H as [|q ps Hq _ IH]; simpl; [reflexivity |].
  now rewrite Hq.
Qed.

Lemma extract_image_no_data (c : Candidate) (cs : list Candidate) :
  no_image_data (fst (scan_inline (parts (content c)) None)) = true ->
  extract_image {| candidates := c :: cs |}
  = inl (no_image_error (parts (content c))).
Proof.
  intros H. unfold extract_image, no_image_error. simpl.
  rewrite H, collect_text_eq. reflexivity.
Qed.

Lemma extract_image_data (c : Candidate) (cs : list Candidate)
    (b : Byte.byte) (d : bytes) :
  fst (scan_inline (parts (content c)) None) = Some (b :: d) ->
  extract_image {| candidates := c :: cs |} = inr (b :: d).
Proof. intros H. unfold extract_image. simpl. now rewrite H. Qed.

End ParsingFacts.

(** * Facts about the handler *)

Section HandlerFacts.

Context {Image : Type} (W : World Image).

(** After the checks: the upload is stored, then the [try] decides. *)
Lemma upload_file_accepted (request : Request) (file : FileStorage)
    (instruction : string) (fs : FS) :
  accepted request file instruction ->
  upload_file W request fs
  = match write_error W (upload_path W file) with
    | Some e => (inl e, fs)
    | None =>
        match process W instruction (upload_name W file) (upload_path W file)
                (<[upload_path W file := stream file]> fs) with
        | (inr url, fs') =>
            (inr (success_response (upload_name W file) url instruction), fs')
        | (inl e, fs') => (inr (failure_response e), fs')
        end
    end.
Proof.
  intros [Hf Hn Hi Hne Hext]. unfold upload_file. rewrite Hf.
  destruct (String.eqb_spec (filename file) ""); [contradiction |].
  rewrite Hi. change (default "" (Some instruction)) with instruction.
  apply truthy_spec in Hne. rewrite Hne. cbn [negb].
  unfold FileStorage_bool.
  assert (Str.truthy (filename file) = true) as -> by now apply truthy_spec.
  unfold bind, lift, try_except, FileStorage_save, write_file, ret.
  rewrite Hext. cbv beta iota.
  fold (upload_name W file). fold (upload_path W file).
  destruct (write_error W (upload_path W file)); [reflexivity |].
  destruct (process W instruction (upload_name W file) (upload_path W file) _)
    as [[e|url] fs']; reflexivity.
Qed.

(** The body of the [try] on a file system that holds the upload. *)
Lemma process_run (instruction name filepath : string) (b : bytes) (fs : FS) :
  fs !! filepath = Some b ->
  process W instruction name filepath fs
  = match Image_open W b with
    | inl e => (inl e, fs)
    | inr img =>
    match generate_content W instruction img with
    | inl e => (inl e, fs)
    | inr response =>
    match extract_image response with
    | inl e => (inl e, fs)
    | inr d =>
    match Image_open W d with
    | inl e => (inl e, fs)
    | inr processed_image =>
    match processed_filename_of name with
    | inl e => (inl e, fs)
    | inr pf =>
    match encode_PNG W processed_image with
    | inl e => (inl e, fs)
    | inr png =>
    match write_error W (os_path_join UPLOAD_FOLDER pf) with
    | Some e => (inl e, fs)
    | None => (inr ("/uploads/" +:+ pf),
               <[os_path_join UPLOAD_FOLDER pf := png]> fs)
    end end end end end end end.
Proof.
  intros Hb.
  unfold process, Image_open_path, Image_save_PNG, write_file, read_file,
    bind, lift, ret.
  rewrite Hb.
  destruct (Image_open W b); [reflexivity |].
  destruct (generate_content W instruction _); [reflexivity |].
  destruct (extract_image _); [reflexivity |].
  destruct (Image_open W _); [reflexivity |].
  destruct (processed_filename_of name); [reflexivity |].
  destruct (encode_PNG W _); [reflexivity |].
  destruct (write_error W _); reflexivity.
Qed.

(** The four checks, in the order of the code. *)
Lemma upload_file_no_file (request : Request) (fs : FS) :
  files request !! "file" = None ->
  upload_file W request fs = (inr (error_response "No file part" 400), fs).
Proof. intros H. unfold upload_file. now rewrite H. Qed.

Lemma upload_file_no_name (request : Request) (file : FileStorage) (fs : FS) :
  files request !! "file" = Some file ->
  filename file = "" ->
  upload_file W request fs = (inr (error_response "No selected file" 400), fs).
Proof. intros H E. unfold upload_file. now rewrite H, E. Qed.

Lemma upload_file_no_instruction (request : Request) (file : FileStorage)
    (fs : FS) :
  files request !! "file" = Some file ->
  filename file <> "" ->
  default "" (form request !! "instruction") = "" ->
  upload_file W request fs
  = (inr (error_response "Instruction is required" 400), fs).
Proof.
  intros H Hn E. unfold upload_file. rewrite H.
  destruct (String.eqb_spec (filename file) ""); [contradiction |].
  now rewrite E.
Qed.

Lemma upload_file_not_allowed (request : Request) (file : FileStorage)
    (fs : FS) :
  files request !! "file" = Some file ->
  filename file <> "" ->
  default "" (form request !! "instruction") <> "" ->
  allowed_file (filename file) = inr false ->
  upload_file W request fs
  = (inr (error_response
            "File type not allowed or an unexpected error occurred." 400), fs).
Proof.
  intros H Hn Hi E. unfold upload_file. rewrite H.
  destruct (String.eqb_spec (filename file) ""); [contradiction |].
  apply truthy_spec in Hi. rewrite Hi. cbn [negb].
  unfold FileStorage_bool.
  assert (Str.truthy (filename file) = true) as -> by now apply truthy_spec.
  unfold bind, lift. now rewrite E.
Qed.

Lemma upload_file_rejected (request : Request) (fs : FS) :
  fails_validation request = true ->
  exists msg, upload_file W request fs = (inr (error_response msg 400), fs).
Proof.
  unfold fails_validation. intros H.
  destruct (files request !! "file") as [file|] eqn:Hf;
    [| eauto using upload_file_no_file].
  destruct (String.eqb_spec (filename file) "") as [Hn|Hn];
    [eauto using upload_file_no_name |].
  destruct (String.eqb_spec (default "" (form request !! "instruction")) "")
    as [Hi|Hi]; [eauto using upload_file_no_instruction |].
  simpl in H. destruct (allowed_file_total (filename file)) as [b Hb].
  rewrite Hb in H. destruct b; [discriminate |].
  eauto using upload_file_not_allowed.
Qed.

Lemma not_rejected_accepted (request : Request) :
  fails_validation request = false ->
  exists file instruction, accepted request file instruction.
Proof.
  unfold fails_validation. intros H.
  destruct (files request !! "file") as [file|] eqn:Hf; [| discriminate].
  destruct (String.eqb_spec (filename file) "") as [Hn|Hn]; [discriminate |].
  destruct (String.eqb_spec (default "" (form request !! "instruction")) "")
    as [Hi|Hi]; [discriminate |].
  simpl in H.
  destruct (allowed_file (filename file)) as [e|[|]] eqn:Hb; try discriminate.
  destruct (form request !! "instruction") as [instruction|] eqn:E;
    [| contradiction].
  exists file, instruction. split; auto.
Qed.

(** The result never takes the place of the upload: its name starts
    with a [p], the upload's with a hexadecimal digit. *)
Lemma processed_path_fresh (file : FileStorage) (stem : string) :
  "uploads/processed_" +:+ stem <> upload_path W file.
Proof.
  unfold upload_path, upload_name. rewrite upload_path_eq.
  destruct (format_032x_cons (uuid4 W)) as (x & r & -> & _ & Hx).
  intros H.
  change ("uploads/processed_" +:+ stem)
    with ("uploads/" +:+ String "p" ("rocessed_" +:+ stem)) in H.
  apply append_inv_head in H. rewrite (append_cons x r) in H. congruence.
Qed.


End HandlerFacts.

(** * The claims *)

Lemma occurs_in_suffix (a t : string) : Str.occurs_in t (a +:+ t).
Proof. exists a, "". now rewrite append_empty_r. Qed.

Lemma occurs_in_empty (s : string) : Str.occurs_in "" s.
Proof. exists s, "". now rewrite append_nil, append_empty_r. Qed.

(** The handler on an accepted request whose upload is stored and opened
    and for which the model answers: the answer's parsing decides. *)
Lemma upload_file_no_image {Image : Type} (W : World Image) (request : Request) (file : FileStorage)
    (instruction : string) (fs : FS) (img : Image)
    (c : Candidate) (cs : list Candidate) :
  accepted request file instruction ->
  write_error W (upload_path W file) = None ->
  Image_open W (stream file) = inr img ->
  generate_content W instruction img = inr {| candidates := c :: cs |} ->
  no_image_data (fst (scan_inline (parts (content c)) None)) = true ->
  upload_file W request fs
  = (inr (failure_response (no_image_error (parts (content c)))),
     <[upload_path W file := stream file]> fs).
Proof.
  intros Hacc Hw Himg Hgen Hno.
  rewrite (upload_file_accepted W _ _ _ _ Hacc), Hw.
  rewrite (process_run W _ _ _ (stream file)) by apply lookup_insert_eq.
  rewrite Himg, Hgen, (extract_image_no_data _ _ Hno). reflexivity.
Qed.




(** C2. When no part of the first candidate carries inline data, the
    handler answers 500 with a message that contains the text of all
    text parts concatenated in part order, and the word Empty when there
    is no text part either. *)
Theorem no_inline_data_diagnostic {Image : Type} (W : World Image)
    (request : Request) (file : FileStorage)
    (instruction : string) (fs : FS) (img : Image)
    (response : GenerateContentResponse) (c : Candidate) (cs : list Candidate) :
  accepted request file instruction ->
  write_error W (upload_path W file) = None ->
  Image_open W (stream file) = inr img ->
  generate_content W instruction img = inr response ->
  candidates response = c :: cs ->
  Forall (fun q => inline_data q = None) (parts (content c)) ->
  exists msg,
    upload_file W request fs
    = (inr (error_response msg 500), <[upload_path W file := stream file]> fs)
    /\ msg = "Failed to process image with AI model. Details: "
             +:+ "The model did not return an image. Response: "
             +:+ Str.or_else (text_of_parts (parts (content c))) "Empty"
    /\ Str.occurs_in (text_of_parts (parts (content c))) msg
    /\ (Forall (fun q => text q = None) (parts (content c)) ->
        Str.occurs_in "Empty" msg).
Proof.
  intros Hacc Hw Himg Hgen Hc Hnone.
  destruct response as [cands]. simpl in Hc. subst cands.
  eexists. split; [| split; [reflexivity |]].
  - apply (upload_file_no_image W _ _ _ _ _ _ _ Hacc Hw Himg Hgen).
    now rewrite (scan_inline_none _ _ Hnone).
  - split.
    + unfold Str.or_else.
      destruct (Str.truthy (text_of_parts (parts (content c)))) eqn:E.
      * rewrite <- append_assoc. apply occurs_in_suffix.
      * apply truthy_false in E. rewrite E. apply occurs_in_empty.
    + intros Htext. rewrite (text_of_parts_none _ Htext).
      rewrite <- append_assoc. apply occurs_in_suffix.
Qed.

Lemma no_inline_data_diagnostic_witness :
  exists msg,
    upload_file
      (demo_world (inr (answer_of [text_part "I cannot "; text_part "do that"])))
      (demo_request "cat.PNG" "make the sky purple") ∅
    = (inr (error_response msg 500),
       {[ "uploads/00000000000000000000000000003039_cat.PNG"
          := [Byte.x89; Byte.x50] ]})
    /\ msg = "Failed to process image with AI model. Details: The model did not return an image. Response: I cannot do that".
Proof.
  destruct (no_inline_data_diagnostic
              (demo_world (inr (answer_of [text_part "I cannot "; text_part "do that"])))
              (demo_request "cat.PNG" "make the sky purple")
              {| filename := "cat.PNG"; stream := [Byte.x89; Byte.x50] |}
              "make the sky purple" ∅ [Byte.x89; Byte.x50]
              (answer_of [text_part "I cannot "; text_part "do that"])
              {| content := {| parts := [text_part "I cannot "; text_part "do that"] |} |}
              [])
    as (msg & Hrun & Hmsg & _).
  - split; [reflexivity | discriminate | reflexivity | discriminate
            | vm_compute; reflexivity].
  - reflexivity.
  - reflexivity.
  - reflexivity.
  - reflexivity.
  - repeat constructor.
  - exists msg. split; [exact Hrun | exact Hmsg].
Defined.

(** C3. Validation fails fast in the order of the code, each failure
    with its own 400 message whatever the later checks would say: a
    missing file part, then an empty file name, then a missing or empty
    instruction, then an extension outside png, jpg, jpeg, gif. *)
Theorem validation_order {Image : Type} (W : World Image)
    (request : Request) (fs : FS) :
  (files request !! "file" = None ->
   upload_file W request fs = (inr (error_response "No file part" 400), fs))
  /\ (forall file,
        files request !! "file" = Some file ->
        filename file = "" ->
        upload_file W request fs
        = (inr (error_response "No selected file" 400), fs))
  /\ (forall file,
        files request !! "file" = Some file ->
        filename file <> "" ->
        default "" (form request !! "instruction") = "" ->
        upload_file W request fs
        = (inr (error_response "Instruction is required" 400), fs))
  /\ (forall file,
        files request !! "file" = Some file ->
        filename file <> "" ->
        default "" (form request !! "instruction") <> "" ->
        allowed_file (filename file) = inr false ->
        upload_file W request fs
        = (inr (error_response
                  "File type not allowed or an unexpected error occurred." 400),
           fs))
  /\ (forall ext, ext ∈ ALLOWED_EXTENSIONS <->
                  ext = "png" \/ ext = "jpg" \/ ext = "jpeg" \/ ext = "gif").
Proof.
  split; [| split; [| split; [| split]]].
  - apply upload_file_no_file.
  - intros file. apply upload_file_no_name.
  - intros file. apply upload_file_no_instruction.
  - intros file. apply upload_file_not_allowed.
  - intros ext. unfold ALLOWED_EXTENSIONS.
    rewrite !elem_of_union, !elem_of_singleton. tauto.
Qed.

(** Each check fires although every later check would fail as well. *)
Lemma validation_order_witness :
  upload_file (demo_world (inr (answer_of [])))
    {| files := ∅; form := ∅ |} ∅
  = (inr (error_response "No file part" 400), ∅)
  /\ upload_file (demo_world (inr (answer_of [])))
       {| files := {[ "file" := {| filename := ""; stream := [] |} ]};
          form := ∅ |} ∅
     = (inr (error_response "No selected file" 400), ∅)
  /\ upload_file (demo_world (inr (answer_of [])))
       {| files := {[ "file" := {| filename := "notes.txt"; stream := [] |} ]};
          form := ∅ |} ∅
     = (inr (error_response "Instruction is required" 400), ∅)
  /\ upload_file (demo_world (inr (answer_of [])))
       (demo_request "notes.txt" "make the sky purple") ∅
     = (inr (error_response
               "File type not allowed or an unexpected error occurred." 400), ∅).
Proof.
  split; [| split; [| split]].
  - apply (proj1 (validation_order _ _ _)). reflexivity.
  - apply (proj1 (proj2 (validation_order _ _ _))
             {| filename := ""; stream := [] |}); reflexivity.
  - apply (proj1 (proj2 (proj2 (validation_order _ _ _)))
             {| filename := "notes.txt"; stream := [] |});
      [reflexivity | discriminate | reflexivity].
  - apply (proj1 (proj2 (proj2 (proj2 (validation_order _ _ _))))
             {| filename := "notes.txt"; stream := [Byte.x89; Byte.x50] |});
      [reflexivity | discriminate | discriminate | vm_compute; reflexivity].
Defined.

(** C4. A request that fails a validation check is answered with a 400
    error and leaves the stored files as they were; the handler changes
    the file system only for a request that passed all four checks. *)
Theorem rejected_request_writes_nothing {Image : Type} (W : World Image)
    (request : Request) (fs : FS) :
  (fails_validation request = true ->
   exists resp,
     upload_file W request fs = (inr resp, fs) /\ status resp = 400)
  /\ (forall out fs',
        upload_file W request fs = (out, fs') -> fs' <> fs ->
        fails_validation request = false).
Proof.
  split.
  - intros H. destruct (upload_file_rejected W request fs H) as [msg Hmsg].
    exists (error_response msg 400). split; [exact Hmsg | reflexivity].
  - intros out fs' Hrun Hfs.
    destruct (fails_validation request) eqn:E; [| reflexivity].
    destruct (upload_file_rejected W request fs E) as [msg Hmsg].
    congruence.
Qed.

Lemma rejected_request_writes_nothing_witness :
  exists resp,
    upload_file (demo_world (inr (answer_of [inline_part [Byte.x01]])))
      (demo_request "notes.txt" "make the sky purple")
      {[ "uploads/old.png" := [Byte.x07] ]}
    = (inr resp, {[ "uploads/old.png" := [Byte.x07] ]})
    /\ status resp = 400.
Proof.
  apply (proj1 (rejected_request_writes_nothing
                  (demo_world (inr (answer_of [inline_part [Byte.x01]])))
                  (demo_request "notes.txt" "make the sky purple")
                  {[ "uploads/old.png" := [Byte.x07] ]})).
  vm_compute. reflexivity.
Defined.

(** C10. When the first part with inline data holds an empty byte
    string, the scan stops at that part, and the handler then takes the
    no-image path: it answers 500 with the diagnostic built from the text
    parts and never opens the empty payload as an image. *)
Theorem empty_inline_data_is_no_image {Image : Type} (W : World Image)
    (request : Request) (file : FileStorage) (instruction : string) (fs : FS)
    (img : Image) (response : GenerateContentResponse)
    (c : Candidate) (cs : list Candidate)
    (pre post : list Part) (p : Part) (blob : Blob) :
  accepted request file instruction ->
  write_error W (upload_path W file) = None ->
  Image_open W (stream file) = inr img ->
  generate_content W instruction img = inr response ->
  candidates response = c :: cs ->
  parts (content c) = pre ++ p :: post ->
  Forall (fun q => inline_data q = None) pre ->
  inline_data p = Some blob ->
  data blob = [] ->
  scan_inline (parts (content c)) None = (Some [], post)
  /\ upload_file W request fs
     = (inr (error_response
               ("Failed to process image with AI model. Details: "
                +:+ "The model did not return an image. Response: "
                +:+ Str.or_else (text_of_parts (pre ++ p :: post)) "Empty")
               500),
        <[upload_path W file := stream file]> fs).
Proof.
  intros Hacc Hw Himg Hgen Hc Hparts Hpre Hp Hdata.
  destruct response as [cands]. simpl in Hc. subst cands.
  assert (scan_inline (parts (content c)) None = (Some [], post)) as Hscan.
  { rewrite Hparts, (scan_inline_first pre post p blob None Hpre Hp).
    now rewrite Hdata. }
  split; [exact Hscan |].
  rewrite (upload_file_no_image W _ _ _ _ _ _ _ Hacc Hw Himg Hgen)
    by now rewrite Hscan.
  now rewrite Hparts.
Qed.

(** The decoder of this world accepts the empty payload, and the handler
    still reports that there is no image. *)
Lemma empty_inline_data_is_no_image_witness :
  Image_open (demo_world (inr (answer_of []))) [] = inr []
  /\ upload_file
       (demo_world (inr (answer_of [text_part "Sorry. "; inline_part [];
                                    text_part "Try again.";
                                    inline_part [Byte.x01]])))
       (demo_request "cat.PNG" "make the sky purple") ∅
     = (inr (error_response
               "Failed to process image with AI model. Details: The model did not return an image. Response: Sorry. Try again."
               500),
        {[ "uploads/00000000000000000000000000003039_cat.PNG"
           := [Byte.x89; Byte.x50] ]}).
Proof.
  split; [reflexivity |].
  apply (empty_inline_data_is_no_image
           (demo_world (inr (answer_of [text_part "Sorry. "; inline_part [];
                                        text_part "Try again.";
                                        inline_part [Byte.x01]])))
           (demo_request "cat.PNG" "make the sky purple")
           {| filename := "cat.PNG"; stream := [Byte.x89; Byte.x50] |}
           "make the sky purple" ∅ [Byte.x89; Byte.x50]
           (answer_of [text_part "Sorry. "; inline_part [];
                       text_part "Try again."; inline_part [Byte.x01]])
           {| content := {| parts := [text_part "Sorry. "; inline_part [];
                                      text_part "Try again.";
                                      inline_part [Byte.x01]] |} |}
           [] [text_part "Sorry. "]
           [text_part "Try again."; inline_part [Byte.x01]]
           (inline_part []) {| data := [] |}).
  - split; [reflexivity | discriminate | reflexivity | discriminate
            | vm_compute; reflexivity].
  - reflexivity.
  - reflexivity.
  - reflexivity.
  - reflexivity.
  - reflexivity.
  - repeat constructor.
  - reflexivity.
  - reflexivity.
Defined.

(** C5. A successful request is answered with the JSON object whose
    [original_url] is the serving path of the upload stored as
    [{uuid hex}_{sanitized name}], whose [processed_url] is the serving
    path of the result stored as [processed_{uuid hex}_{sanitized name
    without its last extension}.png], and whose [instruction] is the
    submitted instruction; both paths are served from the upload
    directory afterwards. *)
Theorem success_response_names {Image : Type} (W : World Image)
    (request : Request) (fs fs' : FS) (resp : HttpResponse) :
  upload_file W request fs = (inr resp, fs') ->
  status resp = 200 ->
  exists file instruction,
    files request !! "file" = Some file
    /\ form request !! "instruction" = Some instruction
    /\ let sanitized := secure_filename W (filename file) in
       let stored := format_032x (uuid4 W) +:+ "_" +:+ sanitized in
       let result := "processed_" +:+ format_032x (uuid4 W) +:+ "_"
                     +:+ without_extension sanitized +:+ ".png" in
       json resp = [("original_url", "/uploads/" +:+ stored);
                    ("processed_url", "/uploads/" +:+ result);
                    ("instruction", instruction)]
       /\ uploaded_file stored fs' = (inr (stream file), fs')
       /\ exists png, uploaded_file result fs' = (inr png, fs').
Proof.
  intros Hrun H200.
  destruct (fails_validation request) eqn:E.
  { destruct (upload_file_rejected W request fs E) as [msg Hmsg].
    rewrite Hmsg in Hrun. injection Hrun as <- <-. discriminate H200. }
  destruct (not_rejected_accepted _ E) as (file & instruction & Hacc).
  rewrite (upload_file_accepted W _ _ _ _ Hacc) in Hrun.
  destruct (write_error W (upload_path W file)) eqn:Hw; [discriminate |].
  rewrite (process_run W _ _ _ (stream file)) in Hrun
    by apply lookup_insert_eq.
  unfold upload_name at 1 in Hrun. rewrite processed_filename_eq in Hrun.
  destruct (Image_open W (stream file)) as [e|img];
    [injection Hrun as <- <-; discriminate H200 |].
  destruct (generate_content W instruction img) as [e|response];
    [injection Hrun as <- <-; discriminate H200 |].
  destruct (extract_image response) as [e|d];
    [injection Hrun as <- <-; discriminate H200 |].
  destruct (Image_open W d) as [e|processed_image];
    [injection Hrun as <- <-; discriminate H200 |].
  destruct (encode_PNG W processed_image) as [e|png];
    [injection Hrun as <- <-; discriminate H200 |].
  rewrite processed_path_eq in Hrun.
  match type of Hrun with
  | context [write_error W ?path] => destruct (write_error W path) as [e|]
  end; [injection Hrun as <- <-; discriminate H200 |].
  injection Hrun as <- <-.
  destruct Hacc as [Hf _ Hi _ _].
  exists file, instruction. split; [exact Hf |]. split; [exact Hi |].
  cbv zeta. split; [reflexivity |]. split.
  - unfold uploaded_file.
    change (os_path_join UPLOAD_FOLDER
              (format_032x (uuid4 W) +:+ "_" +:+ secure_filename W (filename file)))
      with (upload_path W file).
    rewrite lookup_insert_ne by apply processed_path_fresh.
    now rewrite lookup_insert_eq.
  - exists png. unfold uploaded_file.
    rewrite processed_path_eq. now rewrite lookup_insert_eq.
Qed.

Lemma success_response_names_witness :
  exists file instruction,
    files (demo_request "holiday.photo.JPG" "make the sky purple") !! "file"
    = Some file
    /\ form (demo_request "holiday.photo.JPG" "make the sky purple")
         !! "instruction" = Some instruction
    /\ json (success_response
               "00000000000000000000000000003039_holiday.photo.JPG"
               "/uploads/processed_00000000000000000000000000003039_holiday.photo.png"
               "make the sky purple")
       = [("original_url",
           "/uploads/" +:+ format_032x 12345 +:+ "_" +:+ filename file);
          ("processed_url",
           "/uploads/" +:+ "processed_" +:+ format_032x 12345 +:+ "_"
           +:+ without_extension (filename file) +:+ ".png");
          ("instruction", instruction)].
Proof.
  destruct (success_response_names
              (demo_world (inr (answer_of [inline_part [Byte.x01]])))
              (demo_request "holiday.photo.JPG" "make the sky purple")
              ∅
              {[ "uploads/00000000000000000000000000003039_holiday.photo.JPG"
                 := [Byte.x89; Byte.x50];
                 "uploads/processed_00000000000000000000000000003039_holiday.photo.png"
                 := [Byte.x01] ]}
              (success_response
                 "00000000000000000000000000003039_holiday.photo.JPG"
                 "/uploads/processed_00000000000000000000000000003039_holiday.photo.png"
                 "make the sky purple"))
    as (file & instruction & Hf & Hi & Hjson & _).
  - vm_compute. reflexivity.
  - reflexivity.
  - exists file, instruction. split; [exact Hf |]. split; [exact Hi |].
    exact Hjson.
Defined.

(** C6, as stated, fails: an upload whose stored name is longer than the
    file system allows makes [file.save] raise before the [try] is
    entered, and the exception leaves the handler. *)
Lemma storage_error_escapes :
  allowed_file long_name = inr true
  /\ upload_file (demo_world (inr (answer_of [inline_part [Byte.x01]])))
       (demo_request long_name "make the sky purple") ∅
     = (inl (OSError "File name too long"), ∅).
Proof. split; vm_compute; reflexivity. Qed.

(** C6, amended. Once the upload of an accepted request is stored, the
    handler always answers: with the success object, or with the 500
    error that carries the text of the exception raised while opening
    the stored image, calling the model, parsing its answer, decoding
    the payload, encoding the result or writing it. *)
Theorem processing_errors_caught {Image : Type} (W : World Image)
    (request : Request) (file : FileStorage) (instruction : string) (fs : FS) :
  accepted request file instruction ->
  write_error W (upload_path W file) = None ->
  let fs1 := <[upload_path W file := stream file]> fs in
  let caught e := upload_file W request fs = (inr (failure_response e), fs1) in
  (exists resp fs',
     upload_file W request fs = (inr resp, fs')
     /\ (status resp = 200 \/ exists e, resp = failure_response e))
  /\ (forall e, Image_open W (stream file) = inl e -> caught e)
  /\ (forall img, Image_open W (stream file) = inr img ->
      (forall e, generate_content W instruction img = inl e -> caught e)
      /\ forall response, generate_content W instruction img = inr response ->
      (forall e, extract_image response = inl e -> caught e)
      /\ forall d, extract_image response = inr d ->
      (forall e, Image_open W d = inl e -> caught e)
      /\ forall processed_image, Image_open W d = inr processed_image ->
      (forall e, encode_PNG W processed_image = inl e -> caught e)
      /\ forall png pf e,
          encode_PNG W processed_image = inr png ->
          processed_filename_of (upload_name W file) = inr pf ->
          write_error W (os_path_join UPLOAD_FOLDER pf) = Some e ->
          caught e).
Proof.
  intros Hacc Hw fs1 caught. subst caught. cbv beta.
  rewrite (upload_file_accepted W _ _ _ _ Hacc), Hw. fold fs1.
  split.
  - destruct (process W instruction (upload_name W file) (upload_path W file) fs1)
      as [[e|url] fs'].
    + exists (failure_response e), fs'. split; [reflexivity |]. right. eauto.
    + eexists _, fs'. split; [reflexivity |]. now left.
  - rewrite (process_run W _ _ _ (stream file))
      by (subst fs1; apply lookup_insert_eq).
    pose proof (processed_filename_eq (uuid4 W)
                  (secure_filename W (filename file))) as Hpf.
    fold (upload_name W file) in Hpf. rewrite Hpf.
    split; [now intros e -> |].
    intros img ->. split; [now intros e -> |].
    intros response ->. split; [now intros e -> |].
    intros d ->. split; [now intros e -> |].
    intros processed_image ->. split; [now intros e -> |].
    intros png pf e -> Heq Hwe. injection Heq as <-. now rewrite Hwe.
Qed.

(** The model call times out: the handler answers 500 with the text of
    the exception. *)
Lemma processing_errors_caught_witness :
  upload_file (demo_world (inl (RuntimeError "504 Deadline Exceeded")))
    (demo_request "cat.PNG" "make the sky purple") ∅
  = (inr (error_response
            "Failed to process image with AI model. Details: 504 Deadline Exceeded"
            500),
     {[ "uploads/00000000000000000000000000003039_cat.PNG"
        := [Byte.x89; Byte.x50] ]}).
Proof.
  destruct (processing_errors_caught
              (demo_world (inl (RuntimeError "504 Deadline Exceeded")))
              (demo_request "cat.PNG" "make the sky purple")
              {| filename := "cat.PNG"; stream := [Byte.x89; Byte.x50] |}
              "make the sky purple" ∅) as (_ & _ & H).
  - split; [reflexivity | discriminate | reflexivity | discriminate
            | vm_compute; reflexivity].
  - reflexivity.
  - destruct (H [Byte.x89; Byte.x50] eq_refl) as [Hgen _].
    exact (Hgen (RuntimeError "504 Deadline Exceeded") eq_refl).
Defined.

(** C7. Two uploads with the same original file name and distinct fresh
    identifiers are stored under distinct paths, and so are their
    results: the naming is injective in the identifier. *)
Theorem stored_paths_distinct (u1 u2 : N) (original : string) :
  (u1 < 2 ^ 128)%N -> (u2 < 2 ^ 128)%N -> u1 <> u2 ->
  os_path_join UPLOAD_FOLDER (stored_filename (format_032x u1) original)
  <> os_path_join UPLOAD_FOLDER (stored_filename (format_032x u2) original)
  /\ exists p1 p2,
       processed_filename_of (stored_filename (format_032x u1) original)
       = inr p1
       /\ processed_filename_of (stored_filename (format_032x u2) original)
          = inr p2
       /\ os_path_join UPLOAD_FOLDER p1 <> os_path_join UPLOAD_FOLDER p2.
Proof.
  intros H1 H2 Hne. split.
  - rewrite !upload_path_eq. intros H.
    apply append_inv_head, append_inv_tail in H.
    apply Hne. now apply format_032x_inj.
  - eexists _, _. rewrite !processed_filename_eq.
    split; [reflexivity |]. split; [reflexivity |].
    rewrite !processed_path_eq. intros H.
    apply append_inv_head, append_inv_tail in H.
    apply Hne. now apply format_032x_inj.
Qed.

Lemma stored_paths_distinct_witness :
  os_path_join UPLOAD_FOLDER (stored_filename (format_032x 1) "cat.png")
  <> os_path_join UPLOAD_FOLDER (stored_filename (format_032x 2) "cat.png").
Proof.
  apply (stored_paths_distinct 1 2 "cat.png"); [reflexivity | reflexivity |].
  discriminate.
Defined.

(** C8, as stated, fails: an instruction of three spaces is empty after
    trimming, and the request is processed and answered with success. *)
Lemma whitespace_instruction_accepted :
  Str.strip "   " = ""
  /\ upload_file (demo_world (inr (answer_of [inline_part [Byte.x01]])))
       (demo_request "cat.PNG" "   ") ∅
     = (inr (success_response
               "00000000000000000000000000003039_cat.PNG"
               "/uploads/processed_00000000000000000000000000003039_cat.png"
               "   "),
        {[ "uploads/00000000000000000000000000003039_cat.PNG"
           := [Byte.x89; Byte.x50];
           "uploads/processed_00000000000000000000000000003039_cat.png"
           := [Byte.x01] ]}).
Proof. split; vm_compute; reflexivity. Qed.

(** C8, amended. For a request with a file part and a file name, the
    handler answers with the 400 error that asks for an instruction
    exactly when the instruction is absent or the empty string: the
    instruction is not trimmed, and one made of white space passes. *)
Theorem instruction_check_is_emptiness {Image : Type} (W : World Image)
    (request : Request) (file : FileStorage) (fs : FS) :
  files request !! "file" = Some file ->
  filename file <> "" ->
  upload_file W request fs
  = (inr (error_response "Instruction is required" 400), fs)
  <-> default "" (form request !! "instruction") = "".
Proof.
  intros Hf Hn.
  split; [| intros Hi; now apply (upload_file_no_instruction W request file)].
  intros Hrun.
  destruct (String.eqb_spec (default "" (form request !! "instruction")) "")
    as [Hi|Hi]; [exact Hi | exfalso].
  destruct (allowed_file_total (filename file)) as [[|] Hb].
  - destruct (form request !! "instruction") as [instruction|] eqn:E;
      [| now apply Hi].
    assert (accepted request file instruction) as Hacc by (split; auto).
    rewrite (upload_file_accepted W _ _ _ _ Hacc) in Hrun.
    destruct (write_error W (upload_path W file)); [discriminate |].
    destruct (process W instruction _ _ _) as [[e|url] fs2]; discriminate.
  - rewrite (upload_file_not_allowed W _ _ _ Hf Hn Hi Hb) in Hrun.
    discriminate.
Qed.

Lemma instruction_check_is_emptiness_witness :
  upload_file (demo_world (inr (answer_of [inline_part [Byte.x01]])))
    (demo_request "cat.PNG" "   ") ∅
  <> (inr (error_response "Instruction is required" 400), ∅).
Proof.
  intros H.
  apply (instruction_check_is_emptiness
           (demo_world (inr (answer_of [inline_part [Byte.x01]])))
           (demo_request "cat.PNG" "   ")
           {| filename := "cat.PNG"; stream := [Byte.x89; Byte.x50] |} ∅
           eq_refl ltac:(discriminate)) in H.
  discriminate H.
Defined.

(** C9. The extension check needs a dot in the file name and looks only
    at what follows the last dot, ignoring case: a name without a dot is
    answered with the 400 file type error, a name whose last extension
    lower-cases to an allowed one passes and is never answered with a
    400, and .PNG and .JPG are such extensions. *)
Theorem extension_check {Image : Type} (W : World Image)
    (request : Request) (file : FileStorage) (instruction : string) (fs : FS) :
  files request !! "file" = Some file ->
  filename file <> "" ->
  form request !! "instruction" = Some instruction ->
  instruction <> "" ->
  (Str.contains "." (filename file) = false ->
   upload_file W request fs
   = (inr (error_response
             "File type not allowed or an unexpected error occurred." 400), fs))
  /\ (forall stem ext,
        filename file = stem +:+ "." +:+ ext ->
        Str.contains "." ext = false ->
        allowed_file (filename file)
        = inr (bool_decide (Str.lower ext ∈ ALLOWED_EXTENSIONS))
        /\ (Str.lower ext ∈ ALLOWED_EXTENSIONS ->
            forall resp fs',
              upload_file W request fs = (inr resp, fs') -> status resp <> 400)
        /\ (Str.lower ext ∉ ALLOWED_EXTENSIONS ->
            upload_file W request fs
            = (inr (error_response
                      "File type not allowed or an unexpected error occurred."
                      400), fs)))
  /\ (forall stem,
        allowed_file (stem +:+ ".PNG") = inr true
        /\ allowed_file (stem +:+ ".JPG") = inr true).
Proof.
  intros Hf Hn Hi Hne.
  assert (default "" (form request !! "instruction") <> "") as Hd
    by now rewrite Hi.
  split; [| split].
  - intros Hdot. apply (upload_file_not_allowed W _ _ _ Hf Hn Hd).
    now apply allowed_file_no_dot.
  - intros stem ext Hname Hext.
    assert (allowed_file (filename file)
            = inr (bool_decide (Str.lower ext ∈ ALLOWED_EXTENSIONS))) as Hal.
    { rewrite Hname. now apply (allowed_file_ext stem ext). }
    split; [exact Hal |]. split.
    + intros Hin resp fs' Hrun.
      rewrite bool_decide_eq_true_2 in Hal by exact Hin.
      assert (accepted request file instruction) as Hacc by (split; auto).
      rewrite (upload_file_accepted W _ _ _ _ Hacc) in Hrun.
      destruct (write_error W (upload_path W file)); [discriminate |].
      destruct (process W instruction _ _ _) as [[e|url] fs2];
        injection Hrun as <- <-; discriminate.
    + intros Hnot. rewrite bool_decide_eq_false_2 in Hal by exact Hnot.
      now apply (upload_file_not_allowed W _ _ _ Hf Hn Hd).
  - intros stem. split.
    + apply (allowed_file_ext stem "PNG"). reflexivity.
    + apply (allowed_file_ext stem "JPG"). reflexivity.
Qed.

Lemma extension_check_witness :
  upload_file (demo_world (inr (answer_of [inline_part [Byte.x01]])))
    (demo_request "README" "make the sky purple") ∅
  = (inr (error_response
            "File type not allowed or an unexpected error occurred." 400), ∅)
  /\ allowed_file "photo.JPG" = inr true.
Proof.
  split.
  - apply (proj1 (extension_check
                    (demo_world (inr (answer_of [inline_part [Byte.x01]])))
                    (demo_request "README" "make the sky purple")
                    {| filename := "README"; stream := [Byte.x89; Byte.x50] |}
                    "make the sky purple" ∅
                    eq_refl ltac:(discriminate) eq_refl ltac:(discriminate))).
    reflexivity.
  - apply (proj2 (proj2 (extension_check
                    (demo_world (inr (answer_of [inline_part [Byte.x01]])))
                    (demo_request "photo.JPG" "make the sky purple")
                    {| filename := "photo.JPG"; stream := [Byte.x89; Byte.x50] |}
                    "make the sky purple" ∅
                    eq_refl ltac:(discriminate) eq_refl ltac:(discriminate)))
             "photo").
Defined.

(** * Further properties of the code *)

(** ** The extension check *)

Lemma lower_char_dot (c : ascii) :
  Ascii.eqb (Str.lower_char c) "." = Ascii.eqb c ".".
Proof. destruct c as [[] [] [] [] [] [] [] []]; reflexivity. Qed.

Lemma lower_char_idem (c : ascii) :
  Str.lower_char (Str.lower_char c) = Str.lower_char c.
Proof. destruct c as [[] [] [] [] [] [] [] []]; reflexivity. Qed.

Lemma lower_idem (s : string) : Str.lower (Str.lower s) = Str.lower s.
Proof.
  induction s as [|c s IH]; simpl; [reflexivity |].
  now rewrite lower_char_idem, IH.
Qed.

Lemma contains_dot_lower (s : string) :
  Str.contains "." (Str.lower s) = Str.contains "." s.
Proof.
  induction s as [|c s IH]; simpl; [reflexivity |].
  now rewrite lower_char_dot, IH.
Qed.

Lemma split_last_lower (s : string) :
  Str.split_last "." (Str.lower s)
  = match Str.split_last "." s with
    | Some (a, b) => Some (Str.lower a, Str.lower b)
    | None => None
    end.
Proof.
  induction s as [|c s IH]; simpl; [reflexivity |].
  rewrite IH, lower_char_dot.
  destruct (Str.split_last "." s) as [[a b]|]; [reflexivity |].
  destruct (Ascii.eqb c "."); reflexivity.
Qed.

(** X1. [allowed_file] never raises: the index [1] into the result of
    [rsplit] is only evaluated for a name with a dot, for which [rsplit]
    gives two pieces. *)
Theorem allowed_file_never_raises (f : string) :
  allowed_file f = inr true \/ allowed_file f = inr false.
Proof.
  destruct (allowed_file_total f) as [[|] H]; auto.
Qed.

(** X2. [allowed_file] accepts exactly the names that end in a dot
    followed by a dot-free extension which lower-cases to png, jpg, jpeg
    or gif; the part before that dot is arbitrary and may be empty. *)
Theorem allowed_file_true_iff (f : string) :
  allowed_file f = inr true
  <-> exists stem ext,
        f = stem +:+ "." +:+ ext
        /\ Str.contains "." ext = false
        /\ (Str.lower ext = "png" \/ Str.lower ext = "jpg"
            \/ Str.lower ext = "jpeg" \/ Str.lower ext = "gif").
Proof.
  split.
  - intros H. apply allowed_file_true_inv in H as (stem & ext & -> & Hd & Hin).
    exists stem, ext. split; [reflexivity |]. split; [exact Hd |].
    unfold ALLOWED_EXTENSIONS in Hin.
    rewrite !elem_of_union, !elem_of_singleton in Hin. tauto.
  - intros (stem & ext & -> & Hd & Hin).
    change ("." +:+ ext) with (String "." ext).
    rewrite (allowed_file_ext stem ext Hd). f_equal.
    apply bool_decide_eq_true_2. unfold ALLOWED_EXTENSIONS.
    rewrite !elem_of_union, !elem_of_singleton. tauto.
Qed.

(** X3. The check ignores case in the whole name: a name and its
    lower-cased form are accepted or rejected alike. *)
Theorem allowed_file_ignores_case (f : string) :
  allowed_file (Str.lower f) = allowed_file f.
Proof.
  unfold allowed_file, Str.rsplit1.
  rewrite contains_dot_lower, split_last_lower.
  destruct (Str.contains "." f); [| reflexivity].
  destruct (Str.split_last "." f) as [[a b]|]; simpl; [| reflexivity].
  now rewrite lower_idem.
Qed.

(** A name that ends in a dot, or hides the allowed extension before
    another one, is rejected; a second extension in front is ignored. *)
Example allowed_file_edges :
  allowed_file "cat.png." = inr false
  /\ allowed_file "cat.png.exe" = inr false
  /\ allowed_file "cat.exe.png" = inr true
  /\ allowed_file ".GiF" = inr true
  /\ allowed_file "png" = inr false.
Proof. repeat split; vm_compute; reflexivity. Qed.

(** ** The parsing of the answer *)

(** The loop either runs through parts without inline data, or stops at
    the first part that has some. *)
Lemma scan_inline_cases (ps : list Part) (acc : option bytes) :
  (Forall (fun q => inline_data q = None) ps
   /\ scan_inline ps acc = (acc, []))
  \/ (exists pre p post blob,
        ps = pre ++ p :: post
        /\ Forall (fun q => inline_data q = None) pre
        /\ inline_data p = Some blob
        /\ scan_inline ps acc = (Some (data blob), post)).
Proof.
  induction ps as [|q ps IH]; simpl.
  - left. split; [constructor | reflexivity].
  - destruct (inline_data q) as [blob|] eqn:Hq.
    + right. exists [], q, ps, blob. simpl. rewrite Hq. auto.
    + destruct IH as [[Hall Hscan] | (pre & p & post & blob & -> & Hpre & Hp & Hscan)].
      * left. split; [constructor; assumption | exact Hscan].
      * right. exists (q :: pre), p, post, blob.
        split; [reflexivity |]. split; [constructor; assumption |]. auto.
Qed.

(** X4. The parsing step succeeds with the payload [d] exactly when the
    answer has a first candidate whose first part with inline data holds
    [d] and [d] is not empty; an empty payload is never handed to the
    image decoder. *)
Theorem extract_image_ok_iff (response : GenerateContentResponse) (d : bytes) :
  extract_image response = inr d
  <-> exists c cs pre p post blob,
        candidates response = c :: cs
        /\ parts (content c) = pre ++ p :: post
        /\ Forall (fun q => inline_data q = None) pre
        /\ inline_data p = Some blob
        /\ data blob = d
        /\ d <> [].
Proof.
  destruct response as [cands]. split.
  - unfold extract_image. simpl candidates.
    destruct cands as [|c cs]; [discriminate |].
    change (index (c :: cs) 0) with (@inr Exception Candidate c). cbv iota.
    destruct (scan_inline_cases (parts (content c)) None)
      as [[_ Hscan] | (pre & p & post & blob & Hps & Hpre & Hp & Hscan)];
      rewrite Hscan; simpl; [discriminate |].
    destruct (data blob) as [|b d'] eqn:Hd; simpl; intros H.
    + discriminate H.
    + injection H as <-.
      exists c, cs, pre, p, post, blob. repeat split; auto.
  - intros (c & cs & pre & p & post & blob & Hc & Hps & Hpre & Hp & Hd & Hne).
    simpl in Hc. subst cands. destruct d as [|b d]; [contradiction |].
    apply extract_image_data.
    now rewrite Hps, (scan_inline_first pre post p blob None Hpre Hp), Hd.
Qed.

Lemma extract_image_ok_iff_witness :
  extract_image (answer_of [text_part "Done."; inline_part [Byte.x01; Byte.x02]])
  = inr [Byte.x01; Byte.x02].
Proof.
  apply (proj2 (extract_image_ok_iff
                  (answer_of [text_part "Done."; inline_part [Byte.x01; Byte.x02]])
                  [Byte.x01; Byte.x02])).
  exists {| content := {| parts := [text_part "Done.";
                                    inline_part [Byte.x01; Byte.x02]] |} |},
    [], [text_part "Done."], (inline_part [Byte.x01; Byte.x02]), [],
    {| data := [Byte.x01; Byte.x02] |}.
  repeat split; [repeat constructor | discriminate].
Defined.

(** X5. The text of the diagnostic is gathered over the whole list of
    parts: the text of two lists of parts in sequence is the text of the
    first followed by the text of the second, and a part without text
    adds nothing. *)
Theorem text_of_parts_app (ps qs : list Part) :
  text_of_parts (ps ++ qs) = text_of_parts ps +:+ text_of_parts qs
  /\ collect_text (ps ++ qs) "" = collect_text qs (collect_text ps "").
Proof.
  assert (text_of_parts (ps ++ qs) = text_of_parts ps +:+ text_of_parts qs) as H.
  { unfold text_of_parts. rewrite omap_app.
    induction (omap text ps) as [|t ts IH]; simpl; [reflexivity |].
    now rewrite IH, append_assoc. }
  split; [exact H |].
  rewrite !collect_text_eq, H, !append_nil. reflexivity.
Qed.

(** ** The names and paths of stored files *)

Lemma string_of_list_ascii_length (l : list ascii) :
  String.length (string_of_list_ascii l) = length l.
Proof. induction l as [|c l IH]; simpl; [reflexivity | now rewrite IH]. Qed.

Lemma format_032x_length (u : N) :
  (u < 2 ^ 128)%N -> String.length (format_032x u) = 32%nat.
Proof.
  intros H. unfold format_032x.
  rewrite string_of_list_ascii_length, length_map, length_rev,
    le_digits_length.
  now apply hex_width_uuid.
Qed.

Lemma append_inj_length (a c b d : string) :
  String.length a = String.length c -> a +:+ b = c +:+ d -> a = c.
Proof.
  revert c. induction a as [|x a IH]; intros [|y c]; simpl;
    try discriminate; [reflexivity |].
  intros Hlen H. rewrite !append_cons in H. injection H as -> H.
  f_equal. apply IH; [lia | exact H].
Qed.

Lemma result_path_eq {Image : Type} (W : World Image) (file : FileStorage) :
  result_path W file = "uploads/processed_" +:+ format_032x (uuid4 W) +:+ "_"
    +:+ without_extension (secure_filename W (filename file)) +:+ ".png".
Proof. reflexivity. Qed.

Lemma processed_name_eq {Image : Type} (W : World Image) (file : FileStorage) :
  processed_filename_of (upload_name W file) = inr (result_name W file).
Proof. unfold upload_name, result_name. apply processed_filename_eq. Qed.

Lemma upload_paths_differ {Image : Type} (W1 W2 : World Image)
    (file1 file2 : FileStorage) :
  (uuid4 W1 < 2 ^ 128)%N -> (uuid4 W2 < 2 ^ 128)%N -> uuid4 W1 <> uuid4 W2 ->
  upload_path W1 file1 <> upload_path W2 file2.
Proof.
  intros H1 H2 Hne. unfold upload_path, upload_name.
  rewrite !upload_path_eq. intros H. apply append_inv_head in H.
  apply append_inj_length in H; [| now rewrite !format_032x_length].
  apply Hne. now apply format_032x_inj.
Qed.

Lemma result_paths_differ {Image : Type} (W1 W2 : World Image)
    (file1 file2 : FileStorage) :
  (uuid4 W1 < 2 ^ 128)%N -> (uuid4 W2 < 2 ^ 128)%N -> uuid4 W1 <> uuid4 W2 ->
  result_path W1 file1 <> result_path W2 file2.
Proof.
  intros H1 H2 Hne. rewrite !result_path_eq. intros H.
  apply append_inv_head in H.
  apply append_inj_length in H; [| now rewrite !format_032x_length].
  apply Hne. now apply format_032x_inj.
Qed.

Lemma result_upload_differ {Image : Type} (W1 W2 : World Image)
    (file1 file2 : FileStorage) :
  result_path W1 file1 <> upload_path W2 file2.
Proof. rewrite result_path_eq. apply processed_path_fresh. Qed.

(** X6. Whatever the sanitizer returns, even a name that starts with a
    slash, the upload and its result are placed below the upload
    directory: the identifier in front keeps [os.path.join] from
    discarding the directory. *)
Theorem stored_below_upload_folder {Image : Type} (W : World Image)
    (file : FileStorage) :
  upload_path W file
  = "uploads/" +:+ format_032x (uuid4 W) +:+ "_"
    +:+ secure_filename W (filename file)
  /\ result_path W file
     = "uploads/" +:+ "processed_" +:+ format_032x (uuid4 W) +:+ "_"
       +:+ without_extension (secure_filename W (filename file)) +:+ ".png"
  /\ processed_filename_of (upload_name W file) = inr (result_name W file).
Proof.
  split; [apply upload_path_eq |]. split; [reflexivity |].
  apply processed_name_eq.
Qed.

(** X7. The stored paths of two requests with distinct identifiers are
    pairwise distinct whatever the two file names are: upload against
    upload, result against result, and a result never has the path of
    an upload, of its own request or of another. *)
Theorem distinct_ids_distinct_paths {Image : Type} (W1 W2 : World Image)
    (file1 file2 : FileStorage) :
  (uuid4 W1 < 2 ^ 128)%N -> (uuid4 W2 < 2 ^ 128)%N -> uuid4 W1 <> uuid4 W2 ->
  upload_path W1 file1 <> upload_path W2 file2
  /\ result_path W1 file1 <> result_path W2 file2
  /\ result_path W1 file1 <> upload_path W2 file2
  /\ result_path W2 file2 <> upload_path W1 file1
  /\ result_path W1 file1 <> upload_path W1 file1.
Proof.
  intros H1 H2 Hne.
  split; [now apply upload_paths_differ |].
  split; [now apply result_paths_differ |].
  repeat split; apply result_upload_differ.
Qed.

Lemma distinct_ids_distinct_paths_witness :
  upload_path (demo_world (inr (answer_of [])))
    {| filename := "a_b.png"; stream := [] |}
  <> upload_path
       {| secure_filename := fun s => s; uuid4 := 7%N;
          write_error := fun _ => None; Image_open := fun b => inr b;
          generate_content := fun _ _ => inr (answer_of []);
          encode_PNG := fun b => inr b |}
       {| filename := "b.png"; stream := [] |}.
Proof.
  apply (distinct_ids_distinct_paths
           (demo_world (inr (answer_of [])))
           {| secure_filename := fun s => s; uuid4 := 7%N;
              write_error := fun _ => None; Image_open := fun b => inr b;
              generate_content := fun _ _ => inr (answer_of []);
              encode_PNG := fun b => inr b |}
           {| filename := "a_b.png"; stream := [] |}
           {| filename := "b.png"; stream := [] |});
    [reflexivity | reflexivity | discriminate].
Defined.

(** ** The runs of the handler *)

Lemma accepted_not_rejected (request : Request) (file : FileStorage)
    (instruction : string) :
  accepted request file instruction -> fails_validation request = false.
Proof.
  intros [Hf Hn Hi Hne Hext]. unfold fails_validation.
  rewrite Hf, Hi, Hext. simpl default.
  destruct (String.eqb_spec (filename file) ""); [contradiction |].
  destruct (String.eqb_spec instruction ""); [contradiction |].
  reflexivity.
Qed.

Lemma accepted_unique (request : Request) (file file' : FileStorage)
    (instruction instruction' : string) :
  accepted request file instruction ->
  accepted request file' instruction' ->
  file = file' /\ instruction = instruction'.
Proof.
  intros [Hf _ Hi _ _] [Hf' _ Hi' _ _]. split; congruence.
Qed.

(** Every run of the handler is of one of the four kinds. *)
Lemma upload_file_run {Image : Type} (W : World Image) (request : Request)
    (fs fs' : FS) (out : Exc HttpResponse) :
  upload_file W request fs = (out, fs') -> run W request fs out fs'.
Proof.
  intros Hrun. destruct (fails_validation request) eqn:E.
  { destruct (upload_file_rejected W request fs E) as [msg Hmsg].
    rewrite Hmsg in Hrun. injection Hrun as <- <-. now constructor. }
  destruct (not_rejected_accepted _ E) as (file & instruction & Hacc).
  rewrite (upload_file_accepted W _ _ _ _ Hacc) in Hrun.
  destruct (write_error W (upload_path W file)) as [e|] eqn:Hw.
  { injection Hrun as <- <-. eapply run_escaped; eassumption. }
  rewrite (process_run W _ _ _ (stream file)) in Hrun
    by apply lookup_insert_eq.
  rewrite processed_name_eq in Hrun. fold (result_path W file) in Hrun.
  destruct (Image_open W (stream file)) as [e|img];
    [injection Hrun as <- <-; eapply run_failed; eassumption |].
  destruct (generate_content W instruction img) as [e|response];
    [injection Hrun as <- <-; eapply run_failed; eassumption |].
  destruct (extract_image response) as [e|d];
    [injection Hrun as <- <-; eapply run_failed; eassumption |].
  destruct (Image_open W d) as [e|processed_image];
    [injection Hrun as <- <-; eapply run_failed; eassumption |].
  destruct (encode_PNG W processed_image) as [e|png];
    [injection Hrun as <- <-; eapply run_failed; eassumption |].
  destruct (write_error W (result_path W file)) as [e|] eqn:Hw';
    [injection Hrun as <- <-; eapply run_failed; eassumption |].
  injection Hrun as <- <-. eapply run_succeeded; eassumption.
Qed.

(** X8. The handler only adds or replaces the upload and its result: no
    stored file is removed, and every path other than those two keeps
    its content, whatever the outcome. *)
Theorem other_files_untouched {Image : Type} (W : World Image)
    (request : Request) (fs fs' : FS) (out : Exc HttpResponse) :
  upload_file W request fs = (out, fs') ->
  (forall path, is_Some (fs !! path) -> is_Some (fs' !! path))
  /\ (forall path,
        (forall file, files request !! "file" = Some file ->
                      path <> upload_path W file /\ path <> result_path W file) ->
        fs' !! path = fs !! path).
Proof.
  intros Hrun. apply upload_file_run in Hrun.
  destruct Hrun as [msg _ | file i e _ _ | file i e [Hf _ _ _ _] _
                   | file i png [Hf _ _ _ _] _ _].
  - auto.
  - auto.
  - split.
    + intros path Hs. rewrite lookup_insert_is_Some. 
      destruct (decide (upload_path W file = path)); auto.
    + intros path Hp. destruct (Hp file Hf) as [Hu _].
      now rewrite lookup_insert_ne.
  - split.
    + intros path Hs. rewrite !lookup_insert_is_Some.
      destruct (decide (result_path W file = path)); [auto |].
      right. split; [assumption |].
      destruct (decide (upload_path W file = path)); auto.
    + intros path Hp. destruct (Hp file Hf) as [Hu Hr].
      now rewrite !lookup_insert_ne.
Qed.

Lemma other_files_untouched_witness :
  is_Some
    (({[ "uploads/processed_00000000000000000000000000003039_cat.png"
         := [Byte.x01];
         "uploads/00000000000000000000000000003039_cat.PNG"
         := [Byte.x89; Byte.x50];
         "uploads/old.png" := [Byte.x07] ]} : FS) !! "uploads/old.png").
Proof.
  assert (upload_file
            (demo_world (inr (answer_of [inline_part [Byte.x01]])))
            (demo_request "cat.PNG" "make the sky purple")
            ({[ "uploads/old.png" := [Byte.x07] ]} : FS)
          = (inr (success_response
                    "00000000000000000000000000003039_cat.PNG"
                    "/uploads/processed_00000000000000000000000000003039_cat.png"
                    "make the sky purple"),
             ({[ "uploads/processed_00000000000000000000000000003039_cat.png"
                 := [Byte.x01];
                 "uploads/00000000000000000000000000003039_cat.PNG"
                 := [Byte.x89; Byte.x50];
                 "uploads/old.png" := [Byte.x07] ]} : FS))) as Hrun
    by (vm_compute; reflexivity).
  apply (proj1 (other_files_untouched _ _ _ _ _ Hrun)).
  exists [Byte.x07]. reflexivity.
Defined.

(** X9. A 500 answer carries the text of a caught exception, and the
    upload is on disk under its path with the content that was sent:
    it is not removed again. *)
Theorem failure_keeps_upload {Image : Type} (W : World Image)
    (request : Request) (fs fs' : FS) (resp : HttpResponse) :
  upload_file W request fs = (inr resp, fs') ->
  status resp = 500 ->
  exists file e,
    files request !! "file" = Some file
    /\ resp = failure_response e
    /\ fs' !! upload_path W file = Some (stream file).
Proof.
  intros Hrun H500. apply upload_file_run in Hrun.
  inversion Hrun as [msg _ Hout | | file i e [Hf _ _ _ _] _ Hout
                    | file i png _ _ _ Hout]; subst.
  - discriminate H500.
  - exists file, e. split; [exact Hf |]. split; [reflexivity |].
    apply lookup_insert_eq.
  - discriminate H500.
Qed.

Lemma failure_keeps_upload_witness :
  exists file e,
    files (demo_request "cat.PNG" "make the sky purple") !! "file" = Some file
    /\ error_response
         "Failed to process image with AI model. Details: 504 Deadline Exceeded"
         500 = failure_response e
    /\ ({[ "uploads/00000000000000000000000000003039_cat.PNG"
           := [Byte.x89; Byte.x50] ]} : FS)
       !! upload_path (demo_world (inl (RuntimeError "504 Deadline Exceeded")))
            file = Some (stream file).
Proof.
  apply (failure_keeps_upload
           (demo_world (inl (RuntimeError "504 Deadline Exceeded")))
           (demo_request "cat.PNG" "make the sky purple") ∅).
  - vm_compute. reflexivity.
  - reflexivity.
Defined.

(** X10. An exception that [file.save] raises for an accepted request is
    not caught: it leaves the handler, and no JSON answer is given. *)
Theorem storage_error_is_not_caught {Image : Type} (W : World Image)
    (request : Request) (file : FileStorage) (instruction : string) (fs : FS)
    (e : Exception) :
  accepted request file instruction ->
  write_error W (upload_path W file) = Some e ->
  (upload_file W request fs).1 = inl e.
Proof.
  intros Hacc Hw.
  now rewrite (upload_file_accepted W _ _ _ _ Hacc), Hw.
Qed.

Lemma storage_error_is_not_caught_witness :
  (upload_file (demo_world (inr (answer_of [])))
     (demo_request long_name "make the sky purple") ∅).1
  = inl (OSError "File name too long").
Proof.
  apply (storage_error_is_not_caught
           (demo_world (inr (answer_of [])))
           (demo_request long_name "make the sky purple")
           {| filename := long_name; stream := [Byte.x89; Byte.x50] |}
           "make the sky purple" ∅).
  - split; [reflexivity | discriminate | reflexivity | discriminate
            | vm_compute; reflexivity].
  - vm_compute. reflexivity.
Defined.

(** X11. An answer of the handler has status 200, 400 or 500, and it is
    400 exactly for the requests that fail a validation check. *)
Theorem status_classification {Image : Type} (W : World Image)
    (request : Request) (fs fs' : FS) (resp : HttpResponse) :
  upload_file W request fs = (inr resp, fs') ->
  (status resp = 200 \/ status resp = 400 \/ status resp = 500)
  /\ (status resp = 400 <-> fails_validation request = true).
Proof.
  intros Hrun. apply upload_file_run in Hrun.
  inversion Hrun as [msg Hf Hout | | file i e Hacc _ Hout
                    | file i png Hacc _ _ Hout]; subst; simpl.
  - split; [auto |]. split; auto.
  - apply accepted_not_rejected in Hacc. rewrite Hacc.
    split; [auto |]. split; discriminate.
  - apply accepted_not_rejected in Hacc. rewrite Hacc.
    split; [auto |]. split; discriminate.
Qed.

Lemma status_classification_witness :
  status (error_response "No selected file" 400) = 400
  <-> fails_validation
        {| files := {[ "file" := {| filename := ""; stream := [] |} ]};
           form := ∅ |} = true.
Proof.
  apply (status_classification
           (demo_world (inr (answer_of [])))
           {| files := {[ "file" := {| filename := ""; stream := [] |} ]};
              form := ∅ |} ∅ ∅).
  reflexivity.
Defined.

(** X12. The successful run: the payload of the first part with inline
    data is decoded, encoded as PNG and written as the result, the
    upload is stored as sent, and the answer names both. *)
Theorem first_inline_part_is_stored {Image : Type} (W : World Image)
    (request : Request) (file : FileStorage) (instruction : string) (fs : FS)
    (img processed_image : Image) (response : GenerateContentResponse)
    (c : Candidate) (cs : list Candidate)
    (pre post : list Part) (p : Part) (blob : Blob) (png : bytes) :
  accepted request file instruction ->
  write_error W (upload_path W file) = None ->
  Image_open W (stream file) = inr img ->
  generate_content W instruction img = inr response ->
  candidates response = c :: cs ->
  parts (content c) = pre ++ p :: post ->
  Forall (fun q => inline_data q = None) pre ->
  inline_data p = Some blob ->
  data blob <> [] ->
  Image_open W (data blob) = inr processed_image ->
  encode_PNG W processed_image = inr png ->
  write_error W (result_path W file) = None ->
  upload_file W request fs
  = (inr (success_response (upload_name W file)
            ("/uploads/" +:+ result_name W file) instruction),
     <[result_path W file := png]> (<[upload_path W file := stream file]> fs)).
Proof.
  intros Hacc Hw Himg Hgen Hc Hparts Hpre Hp Hne Hopen Henc Hw'.
  destruct response as [cands]. simpl in Hc. subst cands.
  rewrite (upload_file_accepted W _ _ _ _ Hacc), Hw.
  rewrite (process_run W _ _ _ (stream file)) by apply lookup_insert_eq.
  rewrite Himg, Hgen.
  destruct (data blob) as [|b d] eqn:Hd; [contradiction |].
  rewrite (extract_image_data c cs b d)
    by now rewrite Hparts, (scan_inline_first pre post p blob None Hpre Hp), Hd.
  rewrite Hopen, processed_name_eq, Henc.
  fold (result_path W file). now rewrite Hw'.
Qed.

Lemma first_inline_part_is_stored_witness :
  upload_file
    (demo_world (inr (answer_of [text_part "Here you are";
                                 inline_part [Byte.x01];
                                 inline_part [Byte.x02]])))
    (demo_request "holiday.photo.JPG" "make the sky purple") ∅
  = (inr (success_response
            "00000000000000000000000000003039_holiday.photo.JPG"
            "/uploads/processed_00000000000000000000000000003039_holiday.photo.png"
            "make the sky purple"),
     {[ "uploads/processed_00000000000000000000000000003039_holiday.photo.png"
        := [Byte.x01];
        "uploads/00000000000000000000000000003039_holiday.photo.JPG"
        := [Byte.x89; Byte.x50] ]}).
Proof.
  apply (first_inline_part_is_stored
           (demo_world (inr (answer_of [text_part "Here you are";
                                        inline_part [Byte.x01];
                                        inline_part [Byte.x02]])))
           (demo_request "holiday.photo.JPG" "make the sky purple")
           {| filename := "holiday.photo.JPG"; stream := [Byte.x89; Byte.x50] |}
           "make the sky purple" ∅ [Byte.x89; Byte.x50] [Byte.x01]
           (answer_of [text_part "Here you are"; inline_part [Byte.x01];
                       inline_part [Byte.x02]])
           {| content := {| parts := [text_part "Here you are";
                                      inline_part [Byte.x01];
                                      inline_part [Byte.x02]] |} |}
           [] [text_part "Here you are"] [inline_part [Byte.x02]]
           (inline_part [Byte.x01]) {| data := [Byte.x01] |} [Byte.x01]).
  - split; [reflexivity | discriminate | reflexivity | discriminate
            | vm_compute; reflexivity].
  - reflexivity.
  - reflexivity.
  - reflexivity.
  - reflexivity.
  - reflexivity.
  - repeat constructor.
  - reflexivity.
  - discriminate.
  - reflexivity.
  - reflexivity.
  - reflexivity.
Defined.

(** X13. An answer without any candidate makes the index [0] raise; the
    exception is caught, the handler answers 500 and the upload stays
    stored. *)
Theorem no_candidate_is_server_error {Image : Type} (W : World Image)
    (request : Request) (file : FileStorage) (instruction : string) (fs : FS)
    (img : Image) :
  accepted request file instruction ->
  write_error W (upload_path W file) = None ->
  Image_open W (stream file) = inr img ->
  generate_content W instruction img = inr {| candidates := [] |} ->
  exists msg,
    upload_file W request fs
    = (inr (error_response
              ("Failed to process image with AI model. Details: " +:+ msg) 500),
       <[upload_path W file := stream file]> fs).
Proof.
  intros Hacc Hw Himg Hgen.
  rewrite (upload_file_accepted W _ _ _ _ Hacc), Hw.
  rewrite (process_run W _ _ _ (stream file)) by apply lookup_insert_eq.
  rewrite Himg, Hgen. eexists. reflexivity.
Qed.

Lemma no_candidate_is_server_error_witness :
  exists msg,
    upload_file (demo_world (inr {| candidates := [] |}))
      (demo_request "cat.PNG" "make the sky purple") ∅
    = (inr (error_response
              ("Failed to process image with AI model. Details: " +:+ msg) 500),
       <[upload_path (demo_world (inr {| candidates := [] |}))
           {| filename := "cat.PNG"; stream := [Byte.x89; Byte.x50] |}
         := [Byte.x89; Byte.x50]]> ∅).
Proof.
  apply (no_candidate_is_server_error
           (demo_world (inr {| candidates := [] |}))
           (demo_request "cat.PNG" "make the sky purple")
           {| filename := "cat.PNG"; stream := [Byte.x89; Byte.x50] |}
           "make the sky purple" ∅ [Byte.x89; Byte.x50]).
  - split; [reflexivity | discriminate | reflexivity | discriminate
            | vm_compute; reflexivity].
  - reflexivity.
  - reflexivity.
  - reflexivity.
Defined.

(** A rejected request is answered without any collaborator. *)
Lemma upload_file_rejected_any {Image : Type} (W W' : World Image)
    (request : Request) (fs : FS) :
  fails_validation request = true ->
  upload_file W' request fs = upload_file W request fs.
Proof.
  unfold fails_validation. intros H.
  destruct (files request !! "file") as [file|] eqn:Hf.
  2: { now rewrite !upload_file_no_file. }
  destruct (String.eqb_spec (filename file) "") as [Hn|Hn].
  { now rewrite !(upload_file_no_name _ _ file). }
  destruct (String.eqb_spec (default "" (form request !! "instruction")) "")
    as [Hi|Hi].
  { now rewrite !(upload_file_no_instruction _ _ file). }
  simpl in H. destruct (allowed_file_total (filename file)) as [b Hb].
  rewrite Hb in H. destruct b; [discriminate |].
  now rewrite !(upload_file_not_allowed _ _ file).
Qed.

(** X14. The generative model plays no part in the answer to a request
    that fails validation, whose upload cannot be stored, or whose
    stored upload is not an image: with any other model the handler
    ends in the same way. *)
Theorem model_not_consulted {Image : Type} (W : World Image)
    (model : string -> Image -> Exc GenerateContentResponse)
    (request : Request) (fs : FS) :
  fails_validation request = true
  \/ (exists file,
        files request !! "file" = Some file
        /\ (write_error W (upload_path W file) <> None
            \/ exists e, Image_open W (stream file) = inl e)) ->
  upload_file (with_model W model) request fs = upload_file W request fs.
Proof.
  intros H. destruct (fails_validation request) eqn:E.
  { now apply upload_file_rejected_any. }
  destruct H as [H | (file' & Hf' & H)]; [discriminate |].
  destruct (not_rejected_accepted _ E) as (file & instruction & Hacc).
  assert (file' = file) as -> by (destruct Hacc; congruence).
  rewrite (upload_file_accepted (with_model W model) _ _ _ _ Hacc).
  rewrite (upload_file_accepted W _ _ _ _ Hacc).
  change (upload_path (with_model W model) file) with (upload_path W file).
  change (upload_name (with_model W model) file) with (upload_name W file).
  change (write_error (with_model W model)) with (write_error W).
  destruct (write_error W (upload_path W file)) as [e|]; [reflexivity |].
  destruct H as [H | [e He]]; [contradiction |].
  rewrite !(process_run _ _ _ _ (stream file)) by apply lookup_insert_eq.
  change (Image_open (with_model W model)) with (Image_open W).
  now rewrite He.
Qed.

Lemma model_not_consulted_witness :
  upload_file
    (with_model (demo_world (inr (answer_of [inline_part [Byte.x01]])))
       (fun _ _ => inl (RuntimeError "quota exceeded")))
    (demo_request "notes.txt" "make the sky purple") ∅
  = upload_file (demo_world (inr (answer_of [inline_part [Byte.x01]])))
      (demo_request "notes.txt" "make the sky purple") ∅.
Proof.
  apply (model_not_consulted
           (demo_world (inr (answer_of [inline_part [Byte.x01]])))
           (fun _ _ => inl (RuntimeError "quota exceeded"))
           (demo_request "notes.txt" "make the sky purple") ∅).
  left. vm_compute. reflexivity.
Defined.

(** X15. Two requests in sequence: after a successful request its upload
    and its result are on disk, and a later request with another
    identifier, however it ends, leaves both as they are. *)
Theorem later_request_keeps_earlier_files {Image : Type} (W1 W2 : World Image)
    (request1 request2 : Request) (fs0 fs1 fs2 : FS)
    (resp1 : HttpResponse) (out2 : Exc HttpResponse) :
  (uuid4 W1 < 2 ^ 128)%N -> (uuid4 W2 < 2 ^ 128)%N -> uuid4 W1 <> uuid4 W2 ->
  upload_file W1 request1 fs0 = (inr resp1, fs1) ->
  status resp1 = 200 ->
  upload_file W2 request2 fs1 = (out2, fs2) ->
  exists file1 png1,
    files request1 !! "file" = Some file1
    /\ fs1 !! upload_path W1 file1 = Some (stream file1)
    /\ fs1 !! result_path W1 file1 = Some png1
    /\ fs2 !! upload_path W1 file1 = Some (stream file1)
    /\ fs2 !! result_path W1 file1 = Some png1.
Proof.
  intros H1 H2 Hne Hrun1 H200 Hrun2.
  apply upload_file_run in Hrun1. apply upload_file_run in Hrun2.
  inversion Hrun1 as [msg _ Hout | | file i e _ _ Hout
                     | file1 i1 png1 [Hf1 _ _ _ _] _ _ Hout]; subst;
    try discriminate H200.
  clear Hrun1 H200.
  assert (<[result_path W1 file1 := png1]>
            (<[upload_path W1 file1 := stream file1]> fs0)
          !! upload_path W1 file1 = Some (stream file1)) as Hup.
  { rewrite lookup_insert_ne by apply result_upload_differ.
    apply lookup_insert_eq. }
  assert (<[result_path W1 file1 := png1]>
            (<[upload_path W1 file1 := stream file1]> fs0)
          !! result_path W1 file1 = Some png1) as Hres
    by apply lookup_insert_eq.
  exists file1, png1. split; [exact Hf1 |].
  split; [exact Hup |]. split; [exact Hres |].
  inversion Hrun2 as [msg _ Hout | file2 i2 e _ _ Hout | file2 i2 e _ _ Hout
                     | file2 i2 png2 _ _ _ Hout]; subst.
  - auto.
  - auto.
  - split.
    + rewrite lookup_insert_ne; [exact Hup |].
      now apply upload_paths_differ.
    + rewrite lookup_insert_ne; [exact Hres |].
      intros Heq. symmetry in Heq. revert Heq. apply result_upload_differ.
  - split.
    + rewrite lookup_insert_ne by apply result_upload_differ.
      rewrite lookup_insert_ne; [exact Hup |].
      now apply upload_paths_differ.
    + rewrite lookup_insert_ne by now apply result_paths_differ.
      rewrite lookup_insert_ne; [exact Hres |].
      intros Heq. symmetry in Heq. revert Heq. apply result_upload_differ.
Qed.

Lemma later_request_keeps_earlier_files_witness :
  exists file1 png1,
    files (demo_request "cat.PNG" "make the sky purple") !! "file" = Some file1
    /\ ({[ "uploads/processed_00000000000000000000000000000007_cat.png"
           := [Byte.x02];
           "uploads/00000000000000000000000000000007_cat.PNG"
           := [Byte.x89; Byte.x50];
           "uploads/processed_00000000000000000000000000003039_cat.png"
           := [Byte.x01];
           "uploads/00000000000000000000000000003039_cat.PNG"
           := [Byte.x89; Byte.x50] ]} : FS)
        !! result_path (demo_world (inr (answer_of [inline_part [Byte.x01]])))
             file1 = Some png1.
Proof.
  destruct (later_request_keeps_earlier_files
              (demo_world (inr (answer_of [inline_part [Byte.x01]])))
              {| secure_filename := fun s => s; uuid4 := 7%N;
                 write_error := fun _ => None; Image_open := fun b => inr b;
                 generate_content :=
                   fun _ _ => inr (answer_of [inline_part [Byte.x02]]);
                 encode_PNG := fun b => inr b |}
              (demo_request "cat.PNG" "make the sky purple")
              (demo_request "cat.PNG" "make it night")
              ∅
              {[ "uploads/processed_00000000000000000000000000003039_cat.png"
                 := [Byte.x01];
                 "uploads/00000000000000000000000000003039_cat.PNG"
                 := [Byte.x89; Byte.x50] ]}
              {[ "uploads/processed_00000000000000000000000000000007_cat.png"
                 := [Byte.x02];
                 "uploads/00000000000000000000000000000007_cat.PNG"
                 := [Byte.x89; Byte.x50];
                 "uploads/processed_00000000000000000000000000003039_cat.png"
                 := [Byte.x01];
                 "uploads/00000000000000000000000000003039_cat.PNG"
                 := [Byte.x89; Byte.x50] ]}
              (success_response
                 "00000000000000000000000000003039_cat.PNG"
                 "/uploads/processed_00000000000000000000000000003039_cat.png"
                 "make the sky purple")
              (inr (success_response
                      "00000000000000000000000000000007_cat.PNG"
                      "/uploads/processed_00000000000000000000000000000007_cat.png"
                      "make it night")))
    as (file1 & png1 & Hf & _ & _ & _ & Hres).
  - reflexivity.
  - reflexivity.
  - discriminate.
  - vm_compute. reflexivity.
  - reflexivity.
  - vm_compute. reflexivity.
  - exists file1, png1. auto.
Defined.

(** ** Start-up *)

(** X16. Configuring the API at start-up never raises. Without a key,
    or with an empty one, [genai.configure] is not called and one line
    starting with Fatal Error is printed; an exception of
    [genai.configure] is printed in the same way; with a key that the
    library accepts nothing is printed. *)
Theorem startup_reports_and_continues (environ : gmap string string)
    (genai_configure : string -> Exc unit) :
  (configure_gemini environ genai_configure).1 = inr tt
  /\ (default "" (environ !! "GOOGLE_API_KEY") = "" ->
      (configure_gemini environ genai_configure).2
      = {| configured_key := None;
           printed := ["Fatal Error: Could not configure Gemini API. "
                       +:+ "GOOGLE_API_KEY not found in .env file."] |})
  /\ (forall key,
        environ !! "GOOGLE_API_KEY" = Some key -> key <> "" ->
        (forall u, genai_configure key = inr u ->
           (configure_gemini environ genai_configure).2
           = {| configured_key := Some key; printed := [] |})
        /\ (forall e, genai_configure key = inl e ->
              (configure_gemini environ genai_configure).2
              = {| configured_key := None;
                   printed := ["Fatal Error: Could not configure Gemini API. "
                               +:+ str e] |})).
Proof.
  unfold configure_gemini. split; [| split].
  - destruct (environ !! "GOOGLE_API_KEY") as [key|]; [| reflexivity].
    destruct (Str.truthy key); [| reflexivity].
    destruct (genai_configure key); reflexivity.
  - destruct (environ !! "GOOGLE_API_KEY") as [key|]; simpl;
      [| reflexivity].
    intros ->. reflexivity.
  - intros key -> Hkey. apply truthy_spec in Hkey. rewrite Hkey. simpl.
    split; [intros u -> | intros e ->]; reflexivity.
Qed.

Lemma startup_reports_and_continues_witness :
  (configure_gemini {[ "GOOGLE_API_KEY" := "" ]} (fun _ => inr tt)).2
  = {| configured_key := None;
       printed := ["Fatal Error: Could not configure Gemini API. GOOGLE_API_KEY not found in .env file."] |}
  /\ (configure_gemini {[ "GOOGLE_API_KEY" := "k-123" ]} (fun _ => inr tt)).2
     = {| configured_key := Some "k-123"; printed := [] |}.
Proof.
  split.
  - apply (proj1 (proj2 (startup_reports_and_continues
                           {[ "GOOGLE_API_KEY" := "" ]} (fun _ => inr tt)))).
    reflexivity.
  - destruct (proj2 (proj2 (startup_reports_and_continues
                              {[ "GOOGLE_API_KEY" := "k-123" ]}
                              (fun _ => inr tt))) "k-123") as [Hok _].
    + reflexivity.
    + discriminate.
    + exact (Hok tt eq_refl).
Defined.
